(** * The plugin build pipeline of grafana-toolkit

    A shallow embedding of [plugin.build.ts] (the tasks [clean], [prepare],
    [prettierCheckPlugin], [lintPlugin] and the runner [pluginBuildRunner])
    together with the properties its specification states about it.

    Asynchronous code is embedded in a small monad [Task]: a computation
    takes the file system and returns how its promise settles (resolved with
    a value or rejected with an error), the file system it leaves behind and
    the events it emitted (console lines, spinner reports, calls made to the
    external collaborators).  [await] is sequencing.  The members of a
    [Promise.all] run concurrently in the code; the embedding lets them
    complete in the order of the array, so a statement that is meant for every
    schedule says nothing of the order in which different members print or
    of which of several rejections is reported. *)

From Stdlib Require Import String Ascii List Bool Arith Lia DecimalString.
From stdpp Require Import base option list gmap strings.

Local Open Scope string_scope.
Local Open Scope list_scope.

(** ** Errors and settled promises *)

(** What a [catch] can observe of a thrown value: Node's system errors carry
    a [code]; an [Error] built with [new Error(message)] carries none, nor
    does the [TypeError] that the language throws when the expression
    [callee] is called and is not a function; a collaborator may throw
    anything else. *)
Inductive JsError : Type :=
| SystemError (code : string) (path : string)
| Error (message : string)
| TypeError (callee : string)
| Foreign (what : string).

(** [error.code] ([None] stands for [undefined]). *)
Definition error_code (e : JsError) : option string :=
  match e with
  | SystemError c _ => Some c
  | _ => None
  end.

Inductive Settled (A : Type) : Type :=
| Resolved (a : A)
| Rejected (e : JsError).
Arguments Resolved {A} a.
Arguments Rejected {A} e.

Definition is_resolved {A} (r : Settled A) : bool :=
  match r with Resolved _ => true | Rejected _ => false end.

(** ** The file system

    Modelled from Node's documentation of [fs.promises]: a file system maps
    absolute paths to their utf8 contents; the paths in [readonly] reject
    every write with [EACCES]. *)
Record FS : Type := mkFS {
  files : gmap string string;
  readonly : gset string
}.

Definition set_file (p c : string) (fs : FS) : FS :=
  mkFS (<[p := c]> (files fs)) (readonly fs).

(** [constants.COPYFILE_EXCL] *)
Definition COPYFILE_EXCL : nat := 1.

(** [fs.promises.readFile(path, 'utf8')] *)
Definition fs_readFile (p : string) (fs : FS) : Settled string :=
  match files fs !! p with
  | Some c => Resolved c
  | None => Rejected (SystemError "ENOENT" p)
  end.

(** [fs.promises.writeFile(path, data)] *)
Definition fs_writeFile (p c : string) (fs : FS) : Settled unit * FS :=
  if decide (p ∈ readonly fs) then (Rejected (SystemError "EACCES" p), fs)
  else (Resolved tt, set_file p c fs).

(** [fs.promises.copyFile(src, dest, flags)]: one call that opens the
    source, then creates the destination; with [COPYFILE_EXCL] the creation
    fails when the destination exists, without it the destination is
    overwritten. *)
Definition fs_copyFile (src dest : string) (flags : nat) (fs : FS)
  : Settled unit * FS :=
  match files fs !! src with
  | None => (Rejected (SystemError "ENOENT" src), fs)
  | Some c =>
      if bool_decide (flags = COPYFILE_EXCL) && bool_decide (is_Some (files fs !! dest))
      then (Rejected (SystemError "EEXIST" dest), fs)
      else if decide (dest ∈ readonly fs)
      then (Rejected (SystemError "EACCES" dest), fs)
      else (Resolved tt, set_file dest c fs)
  end.

(** [existsSync(path)] of Node's [fs] module. *)
Definition fs_existsSync (p : string) (fs : FS) : bool :=
  bool_decide (is_Some (files fs !! p)).

(** Modelled from Node's documentation: the functions of [fs.promises], the
    object that the import of line 4 binds to the name [fs], as of Node 10
    (later versions add functions, all of them asynchronous).  The
    synchronous functions of the [fs] module, [existsSync] and
    [readFileSync] among them, are not properties of that object. *)
Definition fs_promises : list string := [
  "access"; "appendFile"; "chmod"; "chown"; "copyFile"; "lchmod"; "lchown";
  "link"; "lstat"; "mkdir"; "mkdtemp"; "open"; "readdir"; "readFile";
  "readlink"; "realpath"; "rename"; "rmdir"; "stat"; "symlink"; "truncate";
  "unlink"; "utimes"; "writeFile"
].

(** ** Options of the tasks *)

(** [Fixable]: [fix] is optional ([fix_] here, [fix] being reserved); [None]
    is an absent property. *)
Record Fixable : Type := mkFixable { fix_ : option bool }.

Record PluginBuildOptions : Type := mkBuild { coverage : bool }.

Record PluginTestOptions : Type := mkTest {
  updateSnapshot : bool;
  test_coverage : bool;
  test_watch : bool
}.

Record PluginBundleOptions : Type := mkBundle {
  watch : bool;
  production : bool
}.

(** JavaScript truthiness of an optional boolean. *)
Definition truthy (b : option bool) : bool :=
  match b with Some true => true | _ => false end.

(** ** tslint's rule failures *)

Record RuleFailure : Type := mkFailure {
  getRuleSeverity : string;
  getFileName : string;
  line : nat;          (* getStartPosition().getLineAndCharacter().line *)
  character : nat;     (* getStartPosition().getLineAndCharacter().character *)
  getFailure : string
}.

(** ** The external collaborators

    The modules the file imports are not part of it; they are taken at the
    types at which the code calls them. *)
Class Collaborators : Type := {
  (** [tslint]'s loaded configuration *)
  Configuration : Type;
  (** [process.cwd()] and [__dirname] *)
  cwd : string;
  dirname : string;
  (** [path.resolve] *)
  resolvePath : string -> string -> string;
  (** [globby(pattern)]: the paths matching a pattern *)
  globby : string -> FS -> list string;
  (** [JSON.parse], to an object read as a map from keys to values *)
  JSON_parse : string -> Settled (gmap string string);
  (** [prettier.check(contents, config)] *)
  prettier_check : string -> gmap string string -> bool;
  (** [prettier.format(contents, config)] *)
  prettier_format : string -> gmap string string -> Settled string;
  (** [Configuration.findConfiguration(path).results] *)
  findConfiguration : string -> FS -> Settled Configuration;
  (** [new Linter(options).lint(fileName, contents, configuration)]: the
      failures the linter has collected, and the disk it leaves (with
      [options.fix], its first argument, the linter rewrites files) *)
  tslint : bool -> string -> string -> Configuration -> FS -> list RuleFailure * FS;
  (** [execa(command, args)] *)
  execa : string -> list string -> FS -> Settled unit * FS;
  (** [testPlugin] of [./plugin/tests] and [bundleFn] of [./plugin/bundle] *)
  testPlugin : PluginTestOptions -> FS -> Settled unit * FS;
  bundleFn : PluginBundleOptions -> FS -> Settled unit * FS
}.

(** tslint's [LintResult], the fields the task reads. *)
Record LintResult : Type := mkResult {
  errorCount : nat;
  warningCount : nat;
  failures : list RuleFailure
}.

(** Modelled from tslint's [Linter.getResult]: the errors are the failures
    of severity ["error"], every other failure counts as a warning. *)
Definition getResult (fs : list RuleFailure) : LintResult :=
  let errors := List.filter (fun f => String.eqb (getRuleSeverity f) "error") fs in
  mkResult (length errors) (length fs - length errors) fs.

(** The per-file outcome [{ path, success }] of the prettier check. *)
Record FileCheck : Type := mkCheck {
  path : string;
  success : bool
}.

(** ** JavaScript's string operations *)

Definition newline : string := String "010" "".

(** Decimal rendering of a number inside a template literal. *)
Definition show_nat (n : nat) : string := NilEmpty.string_of_uint (Nat.to_uint n).

(** [s.split(sep)] for a non-empty separator: the pieces between the
    occurrences of [sep], found from left to right without overlap.  [skip]
    counts the characters of a matched separator still to be dropped and
    [cur] is the piece being read. *)
Fixpoint split_from (sep : string) (skip : nat) (cur s : string) : list string :=
  match s with
  | EmptyString => [cur]
  | String c rest =>
      match skip with
      | S k => split_from sep k cur rest
      | O =>
          if String.prefix sep s
          then cur :: split_from sep (String.length sep - 1) "" rest
          else split_from sep 0 (cur +:+ String c "") rest
      end
  end.

Definition split (sep s : string) : list string := split_from sep 0 "" s.

(** A template literal prints an absent array element as [undefined]. *)
Definition show_undefined (o : option string) : string :=
  match o with Some s => s | None => "undefined" end.

(** ** Events

    What a run lets an observer see, besides the disk: the console, the
    spinner, and the calls made to the collaborators.  [C] is the type of
    the linter's configurations. *)
Inductive Event (C : Type) : Type :=
| ConsoleLog (text : string)
| ConsoleLogError (text : string) (error : JsError)
| SpinnerStart (label : string)
| SpinnerSucceed (label : string)
| SpinnerFail (label : string)
| Spawned (command : string) (args : list string)
| FindConfiguration (configPath : string)
| Linted (fileName contents : string) (configuration : C)
| RanTests (options : PluginTestOptions)
| RanBundle (options : PluginBundleOptions).
Arguments ConsoleLog {C} text.
Arguments ConsoleLogError {C} text error.
Arguments SpinnerStart {C} label.
Arguments SpinnerSucceed {C} label.
Arguments SpinnerFail {C} label.
Arguments Spawned {C} command args.
Arguments FindConfiguration {C} configPath.
Arguments Linted {C} fileName contents configuration.
Arguments RanTests {C} options.
Arguments RanBundle {C} options.

(** ** The task monad *)

Section Pipeline.
Context `{Collaborators}.

Definition Task (A : Type) : Type := FS -> Settled A * FS * list (Event Configuration).

Definition ret {A} (a : A) : Task A := fun fs => (Resolved a, fs, []).

Definition throw {A} (e : JsError) : Task A := fun fs => (Rejected e, fs, []).

(** [await m; k] and [m.then(k)] *)
Definition bind {A B} (m : Task A) (k : A -> Task B) : Task B := fun fs =>
  match m fs with
  | (Resolved a, fs1, ev1) =>
      match k a fs1 with (r, fs2, ev2) => (r, fs2, ev1 ++ ev2) end
  | (Rejected e, fs1, ev1) => (Rejected e, fs1, ev1)
  end.

(** [m.catch(handler)] *)
Definition catch {A} (m : Task A) (handler : JsError -> Task A) : Task A := fun fs =>
  match m fs with
  | (Resolved a, fs1, ev1) => (Resolved a, fs1, ev1)
  | (Rejected e, fs1, ev1) =>
      match handler e fs1 with (r, fs2, ev2) => (r, fs2, ev1 ++ ev2) end
  end.

Definition emit (e : Event Configuration) : Task unit := fun fs => (Resolved tt, fs, [e]).

(** A synchronous value that may be an exception. *)
Definition settle {A} (r : Settled A) : Task A := fun fs => (r, fs, []).

(** A collaborator acting on the file system. *)
Definition effect {A} (f : FS -> Settled A * FS) : Task A := fun fs =>
  match f fs with (r, fs1) => (r, fs1, []) end.

Notation "'await' x <- m ; k" := (bind m (fun x => k))
  (at level 10, x name, m at level 100, k at level 200).
Notation "'run' m ; k" := (bind m (fun _ => k))
  (at level 10, m at level 100, k at level 200).

(** [Promise.all(tasks)]: every member runs; the result rejects when a
    member does.  The members are let to complete in the order of the array,
    one schedule among those of the code, whose members run concurrently:
    under it the events of the members come in the order of the array and
    the rejection reported is the first of the array. *)
Fixpoint promise_all {A} (tasks : list (Task A)) : Task (list A) := fun fs =>
  match tasks with
  | [] => (Resolved [], fs, [])
  | t :: rest =>
      match t fs with
      | (r, fs1, ev1) =>
          match promise_all rest fs1 with
          | (rs, fs2, ev2) =>
              (match r, rs with
               | Rejected e, _ => Rejected e
               | Resolved _, Rejected e => Rejected e
               | Resolved a, Resolved l => Resolved (a :: l)
               end, fs2, ev1 ++ ev2)
          end
      end
  end.

(** [Promise.all([a, b])] for two members of different types. *)
Definition promise_all2 {A B} (a : Task A) (b : Task B) : Task (A * B) := fun fs =>
  match a fs with
  | (ra, fs1, ev1) =>
      match b fs1 with
      | (rb, fs2, ev2) =>
          (match ra, rb with
           | Rejected e, _ => Rejected e
           | Resolved _, Rejected e => Rejected e
           | Resolved x, Resolved y => Resolved (x, y)
           end, fs2, ev1 ++ ev2)
      end
  end.

(** [xs.forEach(f)] with an [f] that may throw: the first exception stops
    the iteration. *)
Fixpoint forEach {A} (f : A -> Task unit) (xs : list A) : Task unit :=
  match xs with
  | [] => ret tt
  | x :: rest => run f x; forEach f rest
  end.

(** The primitives of the file. *)
Definition console_log (text : string) : Task unit := emit (ConsoleLog text).

Definition readFile (p : string) : Task string := fun fs => (fs_readFile p fs, fs, []).

Definition writeFile (p c : string) : Task unit := effect (fs_writeFile p c).

Definition copyFile (src dest : string) (flags : nat) : Task unit :=
  effect (fs_copyFile src dest flags).

(** [fs.name(...)] for the [fs] of this file: a call of a property that
    the object lacks throws a [TypeError]. *)
Definition fs_method {A} (name : string) (body : Task A) : Task A :=
  if existsb (String.eqb name) fs_promises
  then body
  else throw (TypeError ("fs." +:+ name)).

Definition existsSync (p : string) : Task bool :=
  fs_method "existsSync" (fun fs => (Resolved (fs_existsSync p fs), fs, [])).

Definition readFileSync (p : string) : Task string :=
  fs_method "readFileSync" (fun fs => (fs_readFile p fs, fs, [])).

(** Modelled from the spec: [useSpinner] of [../utils/useSpinner], the
    Staged Task of the specification: it reports the start, then success or
    failure, returns the work's value unchanged and raises the work's error
    again, unchanged. *)
Definition useSpinner {O A} (spinnerLabel : string) (fn : O -> Task A) : O -> Task A :=
  fun options fs =>
    match fn options fs with
    | (r, fs1, ev) =>
        (r, fs1,
         SpinnerStart spinnerLabel :: ev ++
         [if is_resolved r then SpinnerSucceed spinnerLabel else SpinnerFail spinnerLabel])
    end.

(** ** The tasks of [plugin.build.ts] *)

Definition bundlePlugin : PluginBundleOptions -> Task unit :=
  useSpinner "Compiling..." (fun options =>
    run emit (RanBundle options); effect (bundleFn options)).

Definition clean : unit -> Task unit :=
  useSpinner "Cleaning" (fun _ =>
    let args := [cwd +:+ "/dist"] in
    run emit (Spawned "rimraf" args); effect (execa "rimraf" args)).

Definition copyIfNonExistent (srcPath destPath : string) : Task unit :=
  catch
    (run copyFile srcPath destPath COPYFILE_EXCL;
     console_log ("Created: " +:+ destPath))
    (fun error =>
       if negb (bool_decide (error_code error = Some "EEXIST"))
       then throw error
       else ret tt).

Definition prepare : unit -> Task unit :=
  useSpinner "Preparing" (fun _ =>
    run promise_all [
      copyIfNonExistent
        (resolvePath cwd "tsconfig.json")
        (resolvePath dirname "../../config/tsconfig.plugin.local.json");
      copyIfNonExistent
        (resolvePath cwd ".prettierrc.js")
        (resolvePath dirname "../../config/prettier.plugin.rc.js")
    ];
    ret tt).

Definition typecheckPlugin : unit -> Task unit :=
  useSpinner "Typechecking" (fun _ =>
    let args := ["--noEmit"] in
    run emit (Spawned "tsc" args); effect (execa "tsc" args)).

Definition getTypescriptSources : Task (list string) := fun fs =>
  (Resolved (globby (resolvePath cwd "src/**/*.+(ts|tsx)") fs), fs, []).

Definition getStylesSources : Task (list string) := fun fs =>
  (Resolved (globby (resolvePath cwd "src/**/*.+(scss|css)") fs), fs, []).

(** JavaScript truthiness of a value that is a string or [undefined]. *)
Definition truthy_string (o : option string) : bool :=
  match o with Some (String _ _) => true | _ => false end.

(** The promise chain that [paths.map] builds for one path. *)
Definition checkFile (fix' : option bool) (prettierConfig : gmap string string)
    (path : string) : Task FileCheck :=
  await newContents <- (
    await contents <- readFile path;
    let config := <["filepath" := path]> prettierConfig in
    if truthy fix' && negb (prettier_check contents config)
    then await formatted <- settle (prettier_format contents config); ret (Some formatted)
    else ret None);
  await success <- (
    let text := default "" newContents in
    if truthy fix' && truthy_string newContents && (10 <? String.length text)%nat
    then
      catch
        (run writeFile path text;
         run console_log ("Fixed: " +:+ path);
         ret true)
        (fun error =>
           run emit (ConsoleLogError ("Error fixing " +:+ path) error);
           ret false)
    else if truthy fix'
    then run console_log ("No automatic fix for: " +:+ path); ret false
    else ret false);
  ret (mkCheck path success).

Definition prettierCheckPlugin : Fixable -> Task unit :=
  useSpinner "Prettier check" (fun options =>
    let fix' := fix_ options in
    await loaded <- promise_all2
      (await contents <-
         readFile (resolvePath dirname "../../config/prettier.plugin.config.json");
       settle (JSON_parse contents))
      (await results <- promise_all [getStylesSources; getTypescriptSources];
       ret (concat results));
    let prettierConfig := fst loaded in
    let paths := snd loaded in
    await settled <- promise_all (map (checkFile fix' prettierConfig) paths);
    let failures := List.filter (fun r => negb (success r)) settled in
    if (0 <? length failures)%nat
    then
      run console_log (newline +:+ "Fix Prettier issues in following files:");
      run forEach (fun r => console_log (path r)) failures;
      run console_log (newline +:+ "Run toolkit:dev to fix errors");
      throw (Error "Prettier failed")
    else ret tt).

(** The line printed for one rule failure. *)
Definition failureLine (f : RuleFailure) : string :=
  (if String.eqb (getRuleSeverity f) "warning" then "WARNING" else "ERROR") +:+ ": " +:+
  show_undefined (split "src" (getFileName f) !! 1%nat) +:+
  "[" +:+ show_nat (line f + 1) +:+ ":" +:+ show_nat (character f) +:+ "]: " +:+
  getFailure f.

(** [lintResults.reduce((failures, result) => [...failures, ...result.failures], [])] *)
Definition allFailures (lintResults : list LintResult) : list RuleFailure :=
  fold_left (fun collected result => collected ++ failures result) lintResults [].

(** [sourcesToLint.map(f)], where [sourcesToLint] is the promise that
    [getTypescriptSources()] returns and that line 130 does not await: a
    promise has no [map]. *)
Definition map_of_promise {A B} (sourcesToLint : Task (list A)) (f : A -> Task B)
  : Task (list B) :=
  throw (TypeError "sourcesToLint.map").

(** The function that line 133 maps over the sources. *)
Definition lintFile (fix' : bool) (configuration : Configuration) (fileName : string)
  : Task LintResult :=
  await fileContents <- readFileSync fileName;
  run emit (Linted fileName fileContents configuration);
  await found <- effect (fun fs =>
    match tslint fix' fileName fileContents configuration fs with
    | (found, fs1) => (Resolved found, fs1)
    end);
  ret (getResult found).

(** The block of lines 143 to 160, on the results that were retained. *)
Definition reportFailures (lintResults : list LintResult) : Task unit :=
  if (0 <? length lintResults)%nat
  then
    run console_log newline;
    let failures := allFailures lintResults in
    run forEach (fun f => console_log (failureLine f)) failures;
    run console_log newline;
    throw (Error (show_nat (length failures) +:+ " linting errors found in " +:+
                  show_nat (length lintResults) +:+ " files"))
  else ret tt.

Definition lintPlugin : Fixable -> Task unit :=
  useSpinner "Linting" (fun options =>
    let fix' := fix_ options in
    await found <- existsSync (resolvePath cwd "tslint.json");
    let tsLintConfigPath :=
      if found then resolvePath cwd "tslint.json"
      else resolvePath dirname "../../config/tslint.plugin.json" in
    let options_fix := bool_decide (fix' = Some true) in
    run emit (FindConfiguration tsLintConfigPath);
    await configuration <- (fun fs => (findConfiguration tsLintConfigPath fs, fs, []));
    let sourcesToLint := getTypescriptSources in
    await results <- map_of_promise sourcesToLint (lintFile options_fix configuration);
    let lintResults :=
      List.filter (fun result => (0 <? errorCount result)%nat || (0 <? warningCount result)%nat)
        results in
    reportFailures lintResults).

Definition runTests (options : PluginTestOptions) : Task unit :=
  run emit (RanTests options); effect (testPlugin options).

Definition pluginBuildRunner (options : PluginBuildOptions) : Task unit :=
  run clean tt;
  run prepare tt;
  run prettierCheckPlugin (mkFixable (Some false));
  run lintPlugin (mkFixable (Some false));
  run runTests (mkTest false (coverage options) false);
  run bundlePlugin (mkBundle false true);
  ret tt.

End Pipeline.

(** ** A sample project

    Concrete collaborators and file systems on which the tasks are run: a
    plugin checked out at [root], whose sources are [src/a.ts], [src/b.ts]
    and [src/main.css] when they exist.  A file conforms to the formatter
    when it starts with the marker [// ok]; the formatter answers a
    50-character text, except for the text [tiny], for which it answers 8
    characters, and for [broken(], which it cannot parse.  The linter
    reports [var] declarations as errors and [debugger] statements as
    warnings. *)
Module Sample.

Definition toolkit : string := "/opt/toolkit/cli/tasks".

Definition join (base relative : string) : string := base +:+ "/" +:+ relative.

Definition present (fs : FS) (candidates : list string) : list string :=
  List.filter (fun p => fs_existsSync p fs) candidates.

Definition sources (root pattern : string) (fs : FS) : list string :=
  if String.eqb pattern (join root "src/**/*.+(ts|tsx)")
  then present fs [join root "src/a.ts"; join root "src/b.ts"]
  else if String.eqb pattern (join root "src/**/*.+(scss|css)")
  then present fs [join root "src/main.css"]
  else [].

Definition parse (text : string) : Settled (gmap string string) :=
  if String.eqb text "{}" then Resolved ∅ else Rejected (Foreign "SyntaxError").

Definition conforms (contents : string) (config : gmap string string) : bool :=
  String.prefix "// ok" contents.

Definition formatted50 : string :=
  "// ok" +:+ newline +:+ "export const answer: number = 6 * 7 + 0 - 0" +:+ newline.

Definition formatted8 : string := "let a=1;".

Definition reformat (contents : string) (config : gmap string string) : Settled string :=
  if String.eqb contents "tiny" then Resolved formatted8
  else if String.eqb contents "broken(" then Rejected (Foreign "SyntaxError")
  else Resolved formatted50.

Definition loadRules (configPath : string) (fs : FS) : Settled string :=
  match files fs !! configPath with
  | Some _ => Resolved configPath
  | None => Rejected (Foreign "ConfigurationNotFound")
  end.

Definition lintRules (fix' : bool) (fileName contents : string) (configuration : string)
    (fs : FS) : list RuleFailure * FS :=
  (if String.prefix "var " contents
   then [mkFailure "error" fileName 0 0 "Forbidden 'var' keyword"]
   else if String.prefix "debugger" contents
   then [mkFailure "warning" fileName 2 4 "Use of debugger statements is forbidden"]
   else [], fs).

Definition collaborators (root : string) : Collaborators := {|
  Configuration := string;
  cwd := root;
  dirname := toolkit;
  resolvePath := join;
  globby := sources root;
  JSON_parse := parse;
  prettier_check := conforms;
  prettier_format := reformat;
  findConfiguration := loadRules;
  tslint := lintRules;
  execa := fun _ _ fs => (Resolved tt, fs);
  testPlugin := fun _ fs => (Resolved tt, fs);
  bundleFn := fun _ fs => (Resolved tt, fs)
|}.

(** The files the toolkit ships. *)
Definition bundled : list (string * string) := [
  (join toolkit "../../config/prettier.plugin.config.json", "{}");
  (join toolkit "../../config/tslint.plugin.json", "{}");
  (join toolkit "../../config/tsconfig.plugin.local.json", "{ }");
  (join toolkit "../../config/prettier.plugin.rc.js", "module.exports = {};")
].

Definition disk (project : list (string * string)) (locked : list string) : FS :=
  mkFS (list_to_map (project ++ bundled)) (list_to_set locked).

End Sample.

(** ** What a run lets one observe *)

Definition outcome {A E} (ran : Settled A * FS * list E) : Settled A := ran.1.1.
Definition disk_after {A E} (ran : Settled A * FS * list E) : FS := ran.1.2.
Definition events {A E} (ran : Settled A * FS * list E) : list E := ran.2.

(** The calls to [Configuration.findConfiguration] and to [linter.lint]
    among the events of a run, in order. *)
Definition configurationCalls {C} (evs : list (Event C)) : list string :=
  omap (fun e => match e with FindConfiguration p => Some p | _ => None end) evs.

Definition lintCalls {C} (evs : list (Event C)) : list (string * string * C) :=
  omap (fun e => match e with Linted f c cfg => Some (f, c, cfg) | _ => None end) evs.

(** The lines printed on the console, in order. *)
Definition printed {C} (evs : list (Event C)) : list string :=
  omap (fun e => match e with ConsoleLog t => Some t | _ => None end) evs.

(** The calls a run makes to the processes, the test runner and the
    bundler, in order. *)
Definition is_external {C} (e : Event C) : bool :=
  match e with
  | Spawned _ _ | RanTests _ | RanBundle _ => true
  | _ => false
  end.

Definition external {C} (evs : list (Event C)) : list (Event C) :=
  List.filter is_external evs.

Section Observations.
Context `{Collaborators}.

(** [pieces.join(sep)] *)
Fixpoint joinWith (sep : string) (pieces : list string) : string :=
  match pieces with
  | [] => ""
  | [piece] => piece
  | piece :: rest => piece +:+ sep +:+ joinWith sep rest
  end.

(** Whether [sep] occurs in [s]. *)
Fixpoint occurs (sep s : string) : bool :=
  String.prefix sep s ||
  match s with
  | EmptyString => false
  | String _ rest => occurs sep rest
  end.

(** A task that calls no process, test runner or bundler, on any disk. *)
Definition internal {A} (t : Task A) : Prop :=
  forall fs, external (events (t fs)) = [].

(** The paths the prettier check walks: the style sheets, then the
    TypeScript sources. *)
Definition discovered (fs : FS) : list string :=
  globby (resolvePath cwd "src/**/*.+(scss|css)") fs ++
  globby (resolvePath cwd "src/**/*.+(ts|tsx)") fs.

(** The formatting configuration the prettier check loads. *)
Definition loadedConfig (fs : FS) : Settled (gmap string string) :=
  match fs_readFile (resolvePath dirname "../../config/prettier.plugin.config.json") fs with
  | Resolved contents => JSON_parse contents
  | Rejected e => Rejected e
  end.

(** The effective configuration of one file: [{ ...prettierConfig, filepath }]. *)
Definition configFor (base : gmap string string) (p : string) : gmap string string :=
  <["filepath" := p]> base.

(** A text for which a check with fix=true has nothing to write: it
    conforms already, or the formatter's answer is not longer than 10. *)
Definition unfixable (base : gmap string string) (p contents : string) : bool :=
  prettier_check contents (configFor base p) ||
  match prettier_format contents (configFor base p) with
  | Resolved formatted => negb (10 <? String.length formatted)%nat
  | Rejected _ => false
  end.

(** The records of failed files among the results of the checks. *)
Definition failed (results : list FileCheck) : list FileCheck :=
  List.filter (fun r => negb (success r)) results.

Definition nonempty {A} (l : list A) : bool :=
  match l with [] => false | _ :: _ => true end.


(** A fail-fast run of a list of stages: [FailFast stages fs r fs' evs k]
    holds when running [stages] from [fs] invokes exactly the first [k] of
    them, one after the other, each on the disk the previous one left;
    [evs] are the events of those [k] stages and of no other, [fs'] is the
    disk the [k]-th leaves, and [r] is the rejection of the [k]-th, or the
    resolution when all stages resolved. *)
Inductive FailFast :
  list (Task unit) -> FS -> Settled unit -> FS -> list (Event Configuration) -> nat -> Prop :=
| ff_done fs :
    FailFast [] fs (Resolved tt) fs [] 0
| ff_advance stage rest fs fs1 evs1 r fs2 evs2 k :
    stage fs = (Resolved tt, fs1, evs1) ->
    FailFast rest fs1 r fs2 evs2 k ->
    FailFast (stage :: rest) fs r fs2 (evs1 ++ evs2) (S k)
| ff_abort stage rest fs e fs1 evs1 :
    stage fs = (Rejected e, fs1, evs1) ->
    FailFast (stage :: rest) fs (Rejected e) fs1 evs1 1.

End Observations.

(** Sample disks. *)
Module Disks.
Import Sample.

Definition plugin : Collaborators := collaborators "/work/plugin".

Definition a_ts : string := "/work/plugin/src/a.ts".
Definition b_ts : string := "/work/plugin/src/b.ts".
Definition messy : string := "let  x = 1".

(** A fresh project: no local configuration, one conforming source. *)
Definition fresh : FS := disk [(a_ts, formatted50)] [].

(** A conforming source and one that violates the formatting. *)
Definition mixed : FS := disk [(a_ts, formatted50); (b_ts, messy)] [].

(** One source that violates the formatting; the same, write-protected; and
    one for which the formatter answers 8 characters. *)
Definition unformatted : FS := disk [(a_ts, messy)] [].
Definition protected : FS := disk [(a_ts, messy)] [a_ts].
Definition truncated : FS := disk [(a_ts, "tiny")] [].

(** Two sources with one lint failure each. *)
Definition linty : FS := disk [(a_ts, "var x"); (b_ts, "debugger")] [].

(** A project with its own [tsconfig.json] and [.prettierrc.js], on a
    toolkit that lacks the two templates. *)
Definition configured : FS :=
  mkFS (list_to_map [("/work/plugin/tsconfig.json", "{ mine }");
                     ("/work/plugin/.prettierrc.js", "mine")]) ∅.

(** A project with its own configuration and one conforming source. *)
Definition settled : FS :=
  disk [("/work/plugin/tsconfig.json", "{ mine }");
        ("/work/plugin/.prettierrc.js", "mine");
        (a_ts, formatted50)] [].

(** A project with nothing but what the toolkit ships, and one whose
    source the formatter cannot parse. *)
Definition bare : FS := disk [] [].
Definition unparsable : FS := disk [(a_ts, "broken(")] [].

(** The bundled template of [tsconfig.json] and the project's own file. *)
Definition template_json : string :=
  "/opt/toolkit/cli/tasks/../../config/tsconfig.plugin.local.json".
Definition local_json : string := "/work/plugin/tsconfig.json".

(** The failures of the two sources of [linty]; one in a source of a plugin
    that is checked out at [/usr/src/plugin]; and one in a file outside
    [src]. *)
Definition inside : RuleFailure := mkFailure "error" a_ts 0 0 "Forbidden 'var' keyword".
Definition warned : RuleFailure :=
  mkFailure "warning" b_ts 2 4 "Use of debugger statements is forbidden".
Definition inside_nested : RuleFailure :=
  mkFailure "error" "/usr/src/plugin/src/a.ts" 0 0 "Forbidden 'var' keyword".
Definition outside : RuleFailure :=
  mkFailure "warning" "/work/plugin/lib/a.ts" 4 2 "Missing semicolon".

(** Collaborators whose glob still lists [src/a.ts], whatever the disk
    holds: the file may have been removed since. *)
Definition stale : Collaborators := {|
  Configuration := string;
  cwd := "/work/plugin";
  dirname := toolkit;
  resolvePath := join;
  globby := fun pattern _ =>
    if String.eqb pattern "/work/plugin/src/**/*.+(ts|tsx)" then [a_ts] else [];
  JSON_parse := parse;
  prettier_check := conforms;
  prettier_format := reformat;
  findConfiguration := loadRules;
  tslint := lintRules;
  execa := fun _ _ fs => (Resolved tt, fs);
  testPlugin := fun _ fs => (Resolved tt, fs);
  bundleFn := fun _ fs => (Resolved tt, fs)
|}.

End Disks.

(** ** The runner is a fail-fast sequence *)

Section Runner.
Context `{Collaborators}.

(** A task returning nothing resolves with the one value of [unit]. *)
Lemma settled_unit (r : Settled unit) : (exists e, r = Rejected e) \/ r = Resolved tt.
Proof. destruct r as [[]|e]; [right; reflexivity | left; exists e; reflexivity]. Qed.

(** The relation determines the run: it is a function of the stages and of
    the disk. *)
Lemma FailFast_deterministic stages fs r fs' evs k r' fs'' evs' k' :
  FailFast stages fs r fs' evs k ->
  FailFast stages fs r' fs'' evs' k' ->
  r = r' /\ fs' = fs'' /\ evs = evs' /\ k = k'.
Proof.
  intros Hrun; revert r' fs'' evs' k'.
  induction Hrun as [fs | stage rest fs fs1 evs1 r fs2 evs2 k Hstage Hrest IH
                        | stage rest fs e fs1 evs1 Hstage];
    intros r' fs'' evs' k' Hother; inversion Hother; subst; try congruence.
  - auto.
  - match goal with
    | Hs : stage fs = (Resolved tt, ?a, ?b) |- _ =>
        rewrite Hstage in Hs; inversion Hs; subst
    end.
    match goal with
    | Hr : FailFast rest _ _ _ _ _ |- _ => destruct (IH _ _ _ _ Hr) as (-> & -> & -> & ->)
    end.
    auto.
  - match goal with
    | Hs : stage fs = (Rejected _, _, _) |- _ =>
        rewrite Hstage in Hs; inversion Hs; subst
    end.
    auto.
Qed.

(** A fail-fast run never invokes more stages than there are, and resolves
    exactly when it has invoked them all and none rejected. *)
Lemma FailFast_invoked stages fs r fs' evs k :
  FailFast stages fs r fs' evs k ->
  k <= length stages /\ (r = Resolved tt -> k = length stages).
Proof.
  induction 1 as [fs | stage rest fs fs1 evs1 r fs2 evs2 k Hstage Hrest [IHle IHall]
                     | stage rest fs e fs1 evs1 Hstage]; simpl.
  - split; [lia | reflexivity].
  - split; [lia | intros Hr; rewrite (IHall Hr); reflexivity].
  - split; [lia | discriminate].
Qed.



End Runner.

(** ** The bootstrap *)

Section Bootstrap.
Context `{Collaborators}.

(** What [copyIfNonExistent] does, by the state of the disk. *)
Lemma copyIfNonExistent_cases src dest fs :
  copyIfNonExistent src dest fs =
    match files fs !! src, files fs !! dest with
    | None, _ => (Rejected (SystemError "ENOENT" src), fs, [])
    | Some _, Some _ => (Resolved tt, fs, [])
    | Some c, None =>
        if decide (dest ∈ readonly fs)
        then (Rejected (SystemError "EACCES" dest), fs, [])
        else (Resolved tt, set_file dest c fs, [ConsoleLog ("Created: " +:+ dest)])
    end.
Proof.
  unfold copyIfNonExistent, catch, bind, copyFile, effect, fs_copyFile, console_log, emit.
  destruct (files fs !! src) as [c|]; simpl; [| reflexivity].
  destruct (files fs !! dest) as [d|]; simpl; [reflexivity |].
  destruct (decide (dest ∈ readonly fs)); reflexivity.
Qed.

(** [copyIfNonExistent] writes at most its destination, and only when the
    destination is absent. *)
Lemma copyIfNonExistent_frame src dest fs p :
  p <> dest \/ is_Some (files fs !! dest) ->
  files (disk_after (copyIfNonExistent src dest fs)) !! p = files fs !! p.
Proof.
  rewrite copyIfNonExistent_cases. unfold disk_after.
  destruct (files fs !! src) as [c|]; [| reflexivity].
  destruct (files fs !! dest) as [d|] eqn:Hd; [reflexivity |].
  destruct (decide (dest ∈ readonly fs)); [reflexivity |].
  intros [Hp | [d Hsome]]; [| discriminate].
  simpl. apply lookup_insert_ne. congruence.
Qed.

(** The bootstrap runs both ensure operations, the second on the disk the
    first leaves, and resolves when both do. *)
Lemma prepare_runs_both fs :
  let first :=
    copyIfNonExistent (resolvePath cwd "tsconfig.json")
      (resolvePath dirname "../../config/tsconfig.plugin.local.json") fs in
  let second :=
    copyIfNonExistent (resolvePath cwd ".prettierrc.js")
      (resolvePath dirname "../../config/prettier.plugin.rc.js") (disk_after first) in
  is_resolved (outcome (prepare tt fs)) =
    is_resolved (outcome first) && is_resolved (outcome second)
  /\ disk_after (prepare tt fs) = disk_after second.
Proof.
  unfold prepare, useSpinner, bind, ret, outcome, disk_after; simpl.
  destruct (copyIfNonExistent _ _ fs) as [[r1 fs1] ev1]; simpl.
  destruct (copyIfNonExistent _ _ fs1) as [[r2 fs2] ev2]; simpl.
  destruct r1 as [[]|e1], r2 as [[]|e2]; simpl; split; reflexivity.
Qed.

(** C8. [copyIfNonExistent] is one exclusive-create copy followed by a
    handler that is total over the ways the copy can settle: when the copy
    resolves, the creation is reported and the operation resolves; when it
    rejects because the destination exists ([EEXIST]), the operation
    resolves, printing nothing and leaving the disk as it was; every other
    rejection is raised again, unchanged.  In particular, with a readable
    source, an existing destination makes the operation a silent no-op.  The
    bootstrap stage resolves exactly when both of its ensure operations
    resolve. *)
Theorem copyIfNonExistent_settles (src dest : string) (fs : FS) :
  copyIfNonExistent src dest fs =
    match fs_copyFile src dest COPYFILE_EXCL fs with
    | (Resolved _, fs1) => (Resolved tt, fs1, [ConsoleLog ("Created: " +:+ dest)])
    | (Rejected e, fs1) =>
        if decide (error_code e = Some "EEXIST")
        then (Resolved tt, fs, [])
        else (Rejected e, fs, [])
    end
  /\ (is_Some (files fs !! src) -> is_Some (files fs !! dest) ->
      copyIfNonExistent src dest fs = (Resolved tt, fs, []))
  /\ let first :=
       copyIfNonExistent (resolvePath cwd "tsconfig.json")
         (resolvePath dirname "../../config/tsconfig.plugin.local.json") fs in
     let second :=
       copyIfNonExistent (resolvePath cwd ".prettierrc.js")
         (resolvePath dirname "../../config/prettier.plugin.rc.js") (disk_after first) in
     is_resolved (outcome (prepare tt fs)) =
       is_resolved (outcome first) && is_resolved (outcome second)
     /\ disk_after (prepare tt fs) = disk_after second.
Proof.
  split; [| split; [| apply prepare_runs_both]].
  - unfold copyIfNonExistent, catch, bind, copyFile, effect, console_log, emit.
    destruct (fs_copyFile src dest COPYFILE_EXCL fs) as [[[]|e] fs1] eqn:Hcopy; simpl.
    + reflexivity.
    + assert (fs1 = fs) as ->.
      { unfold fs_copyFile in Hcopy.
        destruct (files fs !! src); [| congruence].
        destruct (_ && _); [congruence |].
        destruct (decide _); congruence. }
      destruct (decide (error_code e = Some "EEXIST")) as [Hc | Hc].
      * rewrite bool_decide_eq_true_2 by assumption. reflexivity.
      * rewrite bool_decide_eq_false_2 by assumption. reflexivity.
  - intros [c Hs] [d Hd]. rewrite copyIfNonExistent_cases, Hs, Hd. reflexivity.
Qed.

(** C9. Ensuring a file twice in a row leaves the destination with the
    content it had after the first call, whatever the disk was at the start:
    the second call changes nothing on the disk, and no call changes a
    destination that exists. *)
Theorem copyIfNonExistent_idempotent (src dest : string) (fs : FS) :
  let first := disk_after (copyIfNonExistent src dest fs) in
  let second := disk_after (copyIfNonExistent src dest first) in
  files second !! dest = files first !! dest /\
  second = first /\
  (is_Some (files fs !! dest) -> files first !! dest = files fs !! dest).
Proof.
  cbv zeta.
  assert (Hsecond : disk_after (copyIfNonExistent src dest
                      (disk_after (copyIfNonExistent src dest fs))) =
                    disk_after (copyIfNonExistent src dest fs)).
  { rewrite (copyIfNonExistent_cases src dest fs). unfold disk_after at 2 3.
    destruct (files fs !! src) as [c|] eqn:Hs.
    - destruct (files fs !! dest) as [d|] eqn:Hd; simpl.
      + rewrite copyIfNonExistent_cases, Hs, Hd. reflexivity.
      + destruct (decide (dest ∈ readonly fs)) as [Hro | Hro]; simpl.
        * rewrite copyIfNonExistent_cases, Hs, Hd.
          destruct (decide (dest ∈ readonly fs)); [reflexivity | contradiction].
        * rewrite copyIfNonExistent_cases. simpl.
          rewrite lookup_insert_eq.
          destruct (<[dest:=c]> (files fs) !! src); reflexivity.
    - simpl. rewrite copyIfNonExistent_cases, Hs. reflexivity. }
  split; [rewrite Hsecond; reflexivity | split; [exact Hsecond |]].
  intros Hsome. apply copyIfNonExistent_frame. right; exact Hsome.
Qed.

(** X3. The bootstrap never writes below the project: it changes no path
    other than the two bundled destinations. *)
Lemma prepare_frame fs p :
  p <> resolvePath dirname "../../config/tsconfig.plugin.local.json" ->
  p <> resolvePath dirname "../../config/prettier.plugin.rc.js" ->
  files (disk_after (prepare tt fs)) !! p = files fs !! p.
Proof.
  intros H1 H2.
  destruct (prepare_runs_both fs) as (_ & ->).
  rewrite copyIfNonExistent_frame by (left; exact H2).
  apply copyIfNonExistent_frame. left; exact H1.
Qed.

End Bootstrap.

(** ** The prettier check *)

Section Prettier.
Context `{Collaborators}.

(** Printing a list always resolves, leaves the disk alone and emits one
    console line per element. *)
Lemma forEach_console_log {A} (f : A -> string) (xs : list A) fs :
  forEach (fun x => console_log (f x)) xs fs =
    (Resolved tt, fs, map (fun x => ConsoleLog (f x)) xs).
Proof.
  revert fs; induction xs as [|x xs IH]; intros fs; [reflexivity |].
  cbn [forEach map]. unfold bind. unfold console_log at 1, emit.
  rewrite IH. reflexivity.
Qed.

(** One file, when no fix is asked for: the file is read and a failure is
    recorded; the formatter is not consulted. *)
Lemma checkFile_without_fix fix' base p fs :
  truthy fix' = false ->
  checkFile fix' base p fs =
    match files fs !! p with
    | Some _ => (Resolved (mkCheck p false), fs, [])
    | None => (Rejected (SystemError "ENOENT" p), fs, [])
    end.
Proof.
  intros Hfix. unfold checkFile, bind, readFile, fs_readFile, ret.
  rewrite Hfix. destruct (files fs !! p); reflexivity.
Qed.

(** One file, when a fix is asked for. *)
Lemma checkFile_with_fix base p fs :
  checkFile (Some true) base p fs =
    match files fs !! p with
    | None => (Rejected (SystemError "ENOENT" p), fs, [])
    | Some c =>
        let config := configFor base p in
        if prettier_check c config
        then (Resolved (mkCheck p false), fs, [ConsoleLog ("No automatic fix for: " +:+ p)])
        else
          match prettier_format c config with
          | Rejected e => (Rejected e, fs, [])
          | Resolved c' =>
              if (10 <? String.length c')%nat
              then
                if decide (p ∈ readonly fs)
                then (Resolved (mkCheck p false), fs,
                      [ConsoleLogError ("Error fixing " +:+ p) (SystemError "EACCES" p)])
                else (Resolved (mkCheck p true), set_file p c' fs,
                      [ConsoleLog ("Fixed: " +:+ p)])
              else (Resolved (mkCheck p false), fs,
                    [ConsoleLog ("No automatic fix for: " +:+ p)])
          end
    end.
Proof.
  unfold checkFile, bind, readFile, fs_readFile, ret, settle, catch, writeFile, effect,
    fs_writeFile, console_log, emit, configFor.
  destruct (files fs !! p) as [c|]; simpl; [| reflexivity].
  destruct (prettier_check c _); simpl; [reflexivity |].
  destruct (prettier_format c _) as [c'|e]; simpl; [| reflexivity].
  destruct c' as [|a c']; simpl; [reflexivity |].
  destruct (10 <? S (String.length c'))%nat; simpl; [| reflexivity].
  destruct (decide (p ∈ readonly fs)); reflexivity.
Qed.

(** The stage, once its configuration is loaded: every discovered path is
    checked, and the stage rejects when a check rejects or records a
    failure. *)
Lemma prettierCheckPlugin_run o fs :
  let ran := prettierCheckPlugin o fs in
  match loadedConfig fs with
  | Rejected e => outcome ran = Rejected e /\ disk_after ran = fs
  | Resolved base =>
      let checks := promise_all (map (checkFile (fix_ o) base) (discovered fs)) fs in
      disk_after ran = disk_after checks /\
      outcome ran =
        match outcome checks with
        | Rejected e => Rejected e
        | Resolved results =>
            if (0 <? length (failed results))%nat
            then Rejected (Error "Prettier failed")
            else Resolved tt
        end
  end.
Proof.
  unfold prettierCheckPlugin, useSpinner, loadedConfig, discovered, outcome, disk_after,
    failed, bind, promise_all2, readFile, settle, getStylesSources, getTypescriptSources, ret; simpl.
  destruct (fs_readFile _ fs) as [text|e]; simpl; [| split; reflexivity].
  destruct (JSON_parse text) as [base|e]; simpl; [| split; reflexivity].
  rewrite app_nil_r.
  destruct (promise_all _ fs) as [[[results|e] fs1] evs]; simpl; [| split; reflexivity].
  destruct (0 <? _)%nat; simpl; [| split; reflexivity].
  unfold throw.
  rewrite (forEach_console_log path). simpl. split; reflexivity.
Qed.

(** A check with fix=true leaves the disk alone or writes the formatter's
    answer, longer than 10, over a file that failed the format check. *)
Lemma checkFile_disk base q fs :
  let ran := checkFile (Some true) base q fs in
  disk_after ran = fs \/
  exists c c',
    files fs !! q = Some c /\
    prettier_check c (configFor base q) = false /\
    prettier_format c (configFor base q) = Resolved c' /\
    10 < String.length c' /\
    disk_after ran = set_file q c' fs.
Proof.
  cbv zeta. rewrite checkFile_with_fix. unfold disk_after.
  destruct (files fs !! q) as [c|] eqn:Hq; [| left; reflexivity].
  cbv zeta.
  destruct (prettier_check c _) eqn:Hcheck; [left; reflexivity |].
  destruct (prettier_format c _) as [c'|e] eqn:Hformat; [| left; reflexivity].
  destruct (10 <? String.length c')%nat eqn:Hlen; [| left; reflexivity].
  destruct (decide (q ∈ readonly fs)); [left; reflexivity |].
  right. exists c, c'. apply Nat.ltb_lt in Hlen. auto.
Qed.

(** A check touches no other file and no permission. *)
Lemma checkFile_frame fix' base q fs :
  let after := disk_after (checkFile fix' base q fs) in
  readonly after = readonly fs /\
  forall p, p <> q -> files after !! p = files fs !! p.
Proof.
  cbv zeta. destruct (truthy fix') eqn:Hfix.
  - assert (fix' = Some true) as -> by (destruct fix' as [[]|]; simpl in Hfix; congruence).
    destruct (checkFile_disk base q fs) as [-> | (c & c' & _ & _ & _ & _ & ->)];
      [split; reflexivity |].
    split; [reflexivity |]. intros p Hp. simpl. apply lookup_insert_ne. congruence.
  - rewrite checkFile_without_fix by assumption.
    destruct (files fs !! q); split; reflexivity.
Qed.



(** A discovered file with nothing to write makes the checks reject or
    record a failure. *)
Lemma checks_unfixable base paths fs p c :
  p ∈ paths ->
  files fs !! p = Some c ->
  unfixable base p c = true ->
  match outcome (promise_all (map (checkFile (Some true) base) paths) fs) with
  | Rejected _ => True
  | Resolved results => 0 < length (failed results)
  end.
Proof.
  intros Hin Hc Hun. revert fs Hc. induction paths as [|q rest IH]; intros fs Hc.
  - inversion Hin.
  - cbn [map promise_all]. destruct (decide (q = p)) as [-> | Hne].
    + rewrite checkFile_with_fix, Hc. cbv zeta. unfold unfixable in Hun.
      unfold outcome.
      destruct (prettier_check c _); simpl in *.
      * destruct (promise_all _ fs) as [[[l|e] fs2] ev2]; simpl; [lia | exact I].
      * destruct (prettier_format c _) as [c'|e]; [| discriminate].
        destruct (10 <? String.length c')%nat; [discriminate |].
        destruct (promise_all _ fs) as [[[l|e] fs2] ev2]; simpl; [lia | exact I].
    + assert (Hrest : p ∈ rest) by (inversion Hin; subst; [congruence | assumption]).
      destruct (checkFile_frame (Some true) base q fs) as [_ Hframe]. cbv zeta in Hframe.
      specialize (IH Hrest (disk_after (checkFile (Some true) base q fs))).
      rewrite Hframe in IH by congruence. specialize (IH Hc).
      unfold outcome, disk_after in *.
      destruct (checkFile (Some true) base q fs) as [[r1 fs1] ev1]; simpl in *.
      destruct (promise_all _ fs1) as [[[l|e] fs2] ev2]; simpl in *.
      * destruct r1 as [a|e]; simpl; [| exact I].
        unfold failed in *. simpl. destruct (negb (success a)); simpl; lia.
      * destruct r1; exact I.
Qed.

(** With fix=false every readable file is recorded as failed, whether or
    not it conforms, so the stage rejects as soon as one file is discovered. *)
Lemma checks_all_fail base paths fs :
  Forall (fun p => is_Some (files fs !! p)) paths ->
  promise_all (map (checkFile (Some false) base) paths) fs =
    (Resolved (map (fun p => mkCheck p false) paths), fs, []).
Proof.
  induction 1 as [|q rest [c Hq] _ IH]; [reflexivity |].
  cbn [map promise_all]. rewrite checkFile_without_fix by reflexivity.
  rewrite Hq, IH. reflexivity.
Qed.


(** C6, as amended.  In the prettier check with fix=true, for a file that
    fails the format check and for which the formatter answers a text: when
    the text is longer than the threshold of 10 and the write is accepted,
    the file is overwritten with that text and a success is recorded; when
    the text is longer than the threshold and the write is rejected, the
    file is left as it was and a failure is recorded; when the text is not
    longer than the threshold, the file is left as it was, a failure is
    recorded with the note that no automatic fix exists, and the stage
    rejects. *)
Theorem checkFile_threshold (base : gmap string string) (p c c' : string) (fs : FS) :
  files fs !! p = Some c ->
  prettier_check c (configFor base p) = false ->
  prettier_format c (configFor base p) = Resolved c' ->
  let ran := checkFile (Some true) base p fs in
  (10 < String.length c' -> p ∉ readonly fs ->
     ran = (Resolved (mkCheck p true), set_file p c' fs, [ConsoleLog ("Fixed: " +:+ p)])) /\
  (10 < String.length c' -> p ∈ readonly fs ->
     ran = (Resolved (mkCheck p false), fs,
            [ConsoleLogError ("Error fixing " +:+ p) (SystemError "EACCES" p)])) /\
  (String.length c' <= 10 ->
     ran = (Resolved (mkCheck p false), fs, [ConsoleLog ("No automatic fix for: " +:+ p)]) /\
     (loadedConfig fs = Resolved base -> p ∈ discovered fs ->
      is_resolved (outcome (prettierCheckPlugin (mkFixable (Some true)) fs)) = false)).
Proof.
  intros Hc Hcheck Hformat ran. subst ran.
  rewrite checkFile_with_fix, Hc. cbv zeta. rewrite Hcheck, Hformat.
  split; [| split].
  - intros Hlen Hrw. apply Nat.ltb_lt in Hlen. rewrite Hlen.
    destruct (decide (p ∈ readonly fs)); [contradiction | reflexivity].
  - intros Hlen Hro. apply Nat.ltb_lt in Hlen. rewrite Hlen.
    destruct (decide (p ∈ readonly fs)); [reflexivity | contradiction].
  - intros Hlen. apply Nat.ltb_ge in Hlen. rewrite Hlen.
    split; [reflexivity |]. intros Hbase Hin.
    pose proof (prettierCheckPlugin_run (mkFixable (Some true)) fs) as Hrun.
    cbv zeta in Hrun. rewrite Hbase in Hrun. destruct Hrun as [_ ->]. simpl.
    assert (Hun : unfixable base p c = true)
      by (unfold unfixable; rewrite Hcheck, Hformat, Hlen; reflexivity).
    pose proof (checks_unfixable base (discovered fs) fs p c Hin Hc Hun) as Hfail.
    destruct (outcome _) as [results|e]; [| reflexivity].
    apply Nat.ltb_lt in Hfail. rewrite Hfail. reflexivity.
Qed.

(** When every path is readable and conforms, the checks with fix=true
    record one failure per path and write nothing. *)
Lemma checks_conforming base paths fs :
  Forall (fun p => exists c, files fs !! p = Some c /\
                             prettier_check c (configFor base p) = true) paths ->
  promise_all (map (checkFile (Some true) base) paths) fs =
    (Resolved (map (fun p => mkCheck p false) paths), fs,
     map (fun p => ConsoleLog ("No automatic fix for: " +:+ p)) paths).
Proof.
  induction 1 as [|q rest (c & Hq & Hcheck) _ IH]; [reflexivity |].
  cbn [map promise_all]. rewrite checkFile_with_fix, Hq. cbv zeta.
  rewrite Hcheck, IH. reflexivity.
Qed.

(** C10. In the prettier check with fix=true, a discovered file that
    conforms already is given no reformatted text, so a failure is recorded
    for it with the note that no automatic fix exists; hence, when the set
    of discovered files is not empty and every one of them conforms, the
    stage run with fix=true rejects (with the error of the failed check,
    having written nothing). *)
Theorem prettierCheckPlugin_fix_conforming (base : gmap string string) (fs : FS) :
  loadedConfig fs = Resolved base ->
  discovered fs <> [] ->
  Forall (fun p => exists c, files fs !! p = Some c /\
                             prettier_check c (configFor base p) = true)
         (discovered fs) ->
  Forall (fun p =>
            checkFile (Some true) base p fs =
              (Resolved (mkCheck p false), fs,
               [ConsoleLog ("No automatic fix for: " +:+ p)]))
         (discovered fs) /\
  outcome (prettierCheckPlugin (mkFixable (Some true)) fs) =
    Rejected (Error "Prettier failed") /\
  disk_after (prettierCheckPlugin (mkFixable (Some true)) fs) = fs.
Proof.
  intros Hbase Hne Hall. split.
  - eapply Forall_impl; [exact Hall |]. intros p (c & Hc & Hcheck).
    rewrite checkFile_with_fix, Hc. cbv zeta. rewrite Hcheck. reflexivity.
  - pose proof (prettierCheckPlugin_run (mkFixable (Some true)) fs) as Hrun.
    cbv zeta in Hrun. rewrite Hbase in Hrun. destruct Hrun as [-> ->]. simpl.
    rewrite (checks_conforming base (discovered fs) fs Hall).
    unfold outcome, disk_after, failed. simpl. split; [| reflexivity].
    destruct (discovered fs) as [|p rest]; [congruence | reflexivity].
Qed.

End Prettier.

(** ** The lint check *)

Section Lint.
Context `{Collaborators}.

(** Console lines are neither lint calls nor configuration look-ups. *)
Lemma calls_of_console_lines {A} (f : A -> string) (xs : list A) :
  lintCalls (map (fun x => @ConsoleLog Configuration (f x)) xs) = [] /\
  configurationCalls (map (fun x => @ConsoleLog Configuration (f x)) xs) = [] /\
  printed (map (fun x => @ConsoleLog Configuration (f x)) xs) = map f xs.
Proof.
  induction xs as [|x xs (IH1 & IH2 & IH3)]; [repeat split |].
  repeat split; simpl; [exact IH1 | exact IH2 |].
  unfold printed in *. simpl. rewrite IH3. reflexivity.
Qed.

(** The reduction over the retained results is their concatenation. *)
Lemma allFailures_concat results : allFailures results = concat (map failures results).
Proof.
  unfold allFailures.
  assert (Hgen : forall acc,
            fold_left (fun collected result => collected ++ failures result)
              results acc = acc ++ concat (map failures results)).
  { induction results as [|r rest IH]; intros acc; simpl.
    - symmetry. apply app_nil_r.
    - rewrite IH. symmetry. apply app_assoc. }
  apply (Hgen []).
Qed.

(** The lint task throws at its first statement, whatever its options and
    the disk: [fs] is [fs.promises], which has no [existsSync]. *)
Lemma lintPlugin_type_error o fs :
  lintPlugin o fs =
    (Rejected (TypeError "fs.existsSync"), fs,
     [SpinnerStart "Linting"; SpinnerFail "Linting"]).
Proof. reflexivity. Qed.

(** C4 (the code departs from it).  On every input, whatever the fix flag
    and the disk, the lint task rejects with the [TypeError] of its call to
    [fs.existsSync], which the [fs] of this file does not have: the task has
    then looked up no configuration and linted no source, and it has left
    the disk as it was. *)
Theorem lintPlugin_throws (o : Fixable) (fs : FS) :
  outcome (lintPlugin o fs) = Rejected (TypeError "fs.existsSync") /\
  disk_after (lintPlugin o fs) = fs /\
  configurationCalls (events (lintPlugin o fs)) = [] /\
  lintCalls (events (lintPlugin o fs)) = [] /\
  printed (events (lintPlugin o fs)) = [].
Proof. rewrite lintPlugin_type_error. repeat split. Qed.

(** The walk over the sources would throw as well: the sources are a
    promise that is not awaited, and reading one of them calls
    [fs.readFileSync], which [fs.promises] does not have either. *)
Lemma lint_walk_type_errors fix' configuration fileName fs :
  map_of_promise getTypescriptSources (lintFile fix' configuration) fs =
    (Rejected (TypeError "sourcesToLint.map"), fs, []) /\
  lintFile fix' configuration fileName fs =
    (Rejected (TypeError "fs.readFileSync"), fs, []).
Proof. split; reflexivity. Qed.

(** X13. The block of lines 143 to 160, taken alone, on the results it is
    given: with no result it resolves and prints nothing; otherwise it
    prints, between two empty lines, one line per failure, the failures of
    the first result first and each result's failures in their own order,
    and it throws one error that counts all the failures and the results.
    It writes nothing. *)
Theorem reportFailures_aggregates (lintResults : list LintResult) (fs : FS) :
  reportFailures lintResults fs =
    if nonempty lintResults
    then
      (Rejected (Error (show_nat (length (concat (map failures lintResults))) +:+
                        " linting errors found in " +:+
                        show_nat (length lintResults) +:+ " files")),
       fs,
       ConsoleLog newline ::
       map (fun f => ConsoleLog (failureLine f)) (concat (map failures lintResults)) ++
       [ConsoleLog newline])
    else (Resolved tt, fs, []).
Proof.
  unfold reportFailures. destruct lintResults as [|result rest]; [reflexivity |].
  cbn [nonempty length Nat.ltb Nat.leb]. cbv zeta.
  rewrite allFailures_concat. unfold bind, console_log at 1 3, emit, throw.
  rewrite forEach_console_log. simpl. rewrite <- ?app_assoc. reflexivity.
Qed.

End Lint.

(** ** Runs on the sample project *)

Module Runs.
Import Sample Disks.

(** The sample texts have the lengths of the specification's scenarios. *)
Example sample_lengths : String.length formatted50 = 50 /\ String.length formatted8 = 8.
Proof. split; reflexivity. Qed.

(** C2 (the code departs from it).  With fix=false the task never asks the
    formatter: on a project whose only source conforms, the stage rejects
    and lists that source; on a project with a conforming and a violating
    source it lists both, not the violating one alone. *)
Theorem prettier_check_lists_conforming_files :
  @prettier_check plugin formatted50 (configFor ∅ a_ts) = true /\
  @discovered plugin fresh = [a_ts] /\
  outcome (@prettierCheckPlugin plugin (mkFixable (Some false)) fresh) =
    Rejected (Error "Prettier failed") /\
  events (@prettierCheckPlugin plugin (mkFixable (Some false)) fresh) =
    [SpinnerStart "Prettier check";
     ConsoleLog (newline +:+ "Fix Prettier issues in following files:");
     ConsoleLog a_ts;
     ConsoleLog (newline +:+ "Run toolkit:dev to fix errors");
     SpinnerFail "Prettier check"] /\
  @prettier_check plugin messy (configFor ∅ b_ts) = false /\
  printed (events (@prettierCheckPlugin plugin (mkFixable (Some false)) mixed)) =
    [newline +:+ "Fix Prettier issues in following files:";
     a_ts; b_ts;
     newline +:+ "Run toolkit:dev to fix errors"].
Proof. vm_compute. repeat split. Qed.

(** C3 (the code departs from it).  On a fresh project the bootstrap seeds
    nothing: it asks for a copy of the project's absent [tsconfig.json] onto
    the bundled template, which fails, and the project is left without its
    two files.  On a project that has the two files, it copies them into the
    toolkit when the templates are absent there. *)
Theorem prepare_copies_the_wrong_way :
  outcome (@prepare plugin tt fresh) =
    Rejected (SystemError "ENOENT" "/work/plugin/tsconfig.json") /\
  events (@prepare plugin tt fresh) = [SpinnerStart "Preparing"; SpinnerFail "Preparing"] /\
  files (disk_after (@prepare plugin tt fresh)) !! "/work/plugin/tsconfig.json" = None /\
  files (disk_after (@prepare plugin tt fresh)) !! "/work/plugin/.prettierrc.js" = None /\
  files fresh !! "/opt/toolkit/cli/tasks/../../config/tsconfig.plugin.local.json" = Some "{ }" /\
  files (disk_after (@prepare plugin tt configured))
    !! "/opt/toolkit/cli/tasks/../../config/tsconfig.plugin.local.json" = Some "{ mine }" /\
  events (@prepare plugin tt configured) =
    [SpinnerStart "Preparing";
     ConsoleLog "Created: /opt/toolkit/cli/tasks/../../config/tsconfig.plugin.local.json";
     ConsoleLog "Created: /opt/toolkit/cli/tasks/../../config/prettier.plugin.rc.js";
     SpinnerSucceed "Preparing"].
Proof. vm_compute. repeat split. Qed.

(** C7 (the code departs from it).  On a project with two sources that
    have one lint failure each, the lint task reports nothing: it rejects
    with the [TypeError] of its first statement, prints no failure line and
    raises no error that counts failures and files; it does so on every
    project, so it never succeeds either.  The block of lines 143 to 160,
    which the task does not reach, run alone on the results of the two
    sources, prints their two lines in the order of the results, [ERROR] and
    [WARNING] by severity, and counts 2 failures in 2 files; its line for a
    failure in a plugin checked out at [/usr/src/plugin] shows [/plugin/],
    the text between the first two occurrences of [src], where the source
    below the source root is [/a.ts]. *)
Theorem lint_reports_nothing :
  outcome (@lintPlugin plugin (mkFixable (Some false)) linty) =
    Rejected (TypeError "fs.existsSync") /\
  events (@lintPlugin plugin (mkFixable (Some false)) linty) =
    [SpinnerStart "Linting"; SpinnerFail "Linting"] /\
  @tslint plugin false a_ts "var x" "rules" linty = ([inside], linty) /\
  @tslint plugin false b_ts "debugger" "rules" linty = ([warned], linty) /\
  outcome (@reportFailures plugin [getResult [inside]; getResult [warned]] linty) =
    Rejected (Error "2 linting errors found in 2 files") /\
  printed (events (@reportFailures plugin [getResult [inside]; getResult [warned]] linty)) =
    [newline;
     "ERROR: /a.ts[1:0]: Forbidden 'var' keyword";
     "WARNING: /b.ts[3:4]: Use of debugger statements is forbidden";
     newline] /\
  split "src" (getFileName inside_nested) = ["/usr/"; "/plugin/"; "/a.ts"] /\
  failureLine inside_nested = "ERROR: /plugin/[1:0]: Forbidden 'var' keyword".
Proof. vm_compute. repeat split. Qed.

(** A build of a project whose one source conforms stops at the prettier
    check: the linter, the tests and the bundler are not started. *)
Example build_stops_at_prettier :
  outcome (@pluginBuildRunner plugin (mkBuild true) settled) =
    Rejected (Error "Prettier failed") /\
  events (@pluginBuildRunner plugin (mkBuild true) settled) =
    [SpinnerStart "Cleaning"; Spawned "rimraf" ["/work/plugin/dist"];
     SpinnerSucceed "Cleaning";
     SpinnerStart "Preparing"; SpinnerSucceed "Preparing";
     SpinnerStart "Prettier check";
     ConsoleLog (newline +:+ "Fix Prettier issues in following files:");
     ConsoleLog a_ts;
     ConsoleLog (newline +:+ "Run toolkit:dev to fix errors");
     SpinnerFail "Prettier check"].
Proof. vm_compute. repeat split. Qed.

(** C6 as first stated fails when the write is rejected: the source
    violates the formatting, the formatter answers 50 characters, the file is
    write-protected; the task catches the rejection, records a failure and
    the file keeps its text. *)
Lemma checkFile_rejected_write :
  files protected !! a_ts = Some messy /\
  @prettier_check plugin messy (configFor ∅ a_ts) = false /\
  @prettier_format plugin messy (configFor ∅ a_ts) = Resolved formatted50 /\
  10 < String.length formatted50 /\
  outcome (@checkFile plugin (Some true) ∅ a_ts protected) = Resolved (mkCheck a_ts false) /\
  outcome (@checkFile plugin (Some true) ∅ a_ts protected) <> Resolved (mkCheck a_ts true) /\
  files (disk_after (@checkFile plugin (Some true) ∅ a_ts protected)) !! a_ts = Some messy /\
  files (disk_after (@checkFile plugin (Some true) ∅ a_ts protected)) !! a_ts
    <> Some formatted50.
Proof.
  split; [vm_compute; reflexivity |].
  split; [vm_compute; reflexivity |].
  split; [vm_compute; reflexivity |].
  split; [change (10 < 50); lia |].
  split; [vm_compute; reflexivity |].
  split; [vm_compute; discriminate |].
  split; [vm_compute; reflexivity |].
  vm_compute; discriminate.
Qed.


(** The three cases of the amended C6 on the sample project. *)
Lemma checkFile_threshold_witness :
  @checkFile plugin (Some true) ∅ a_ts unformatted =
    (Resolved (mkCheck a_ts true), set_file a_ts formatted50 unformatted,
     [ConsoleLog ("Fixed: " +:+ a_ts)]) /\
  @checkFile plugin (Some true) ∅ a_ts protected =
    (Resolved (mkCheck a_ts false), protected,
     [ConsoleLogError ("Error fixing " +:+ a_ts) (SystemError "EACCES" a_ts)]) /\
  @checkFile plugin (Some true) ∅ a_ts truncated =
    (Resolved (mkCheck a_ts false), truncated,
     [ConsoleLog ("No automatic fix for: " +:+ a_ts)]) /\
  is_resolved (outcome (@prettierCheckPlugin plugin (mkFixable (Some true)) truncated)) = false.
Proof.
  split; [| split].
  - apply (@checkFile_threshold plugin ∅ a_ts messy formatted50 unformatted);
      [vm_compute; reflexivity | reflexivity | reflexivity | change (10 < 50); lia |].
    apply (bool_decide_unpack _). vm_compute. exact I.
  - apply (@checkFile_threshold plugin ∅ a_ts messy formatted50 protected);
      [vm_compute; reflexivity | reflexivity | reflexivity | change (10 < 50); lia |].
    apply (bool_decide_unpack _). vm_compute. exact I.
  - destruct (@checkFile_threshold plugin ∅ a_ts "tiny" formatted8 truncated)
      as (_ & _ & Hshort); [vm_compute; reflexivity | reflexivity | reflexivity |].
    destruct Hshort as [Hfile Hstage]; [change (8 <= 10); lia |].
    split; [exact Hfile |].
    apply Hstage; [vm_compute; reflexivity |].
    apply (bool_decide_unpack _). vm_compute. exact I.
Defined.

(** Ensuring the project's [tsconfig.json] from the template, when the
    project has its own: nothing is printed and the disk is left as it was. *)
Lemma copyIfNonExistent_settles_witness :
  @copyIfNonExistent plugin
    "/opt/toolkit/cli/tasks/../../config/tsconfig.plugin.local.json"
    "/work/plugin/tsconfig.json" settled = (Resolved tt, settled, []).
Proof.
  apply (proj1 (proj2 (@copyIfNonExistent_settles plugin
           "/opt/toolkit/cli/tasks/../../config/tsconfig.plugin.local.json"
           "/work/plugin/tsconfig.json" settled))); vm_compute; eauto.
Defined.

(** Ensuring the project's [tsconfig.json] from the template keeps the
    project's own file. *)
Lemma copyIfNonExistent_idempotent_witness :
  files (disk_after (@copyIfNonExistent plugin
           "/opt/toolkit/cli/tasks/../../config/tsconfig.plugin.local.json"
           "/work/plugin/tsconfig.json" settled)) !! "/work/plugin/tsconfig.json" =
  files settled !! "/work/plugin/tsconfig.json".
Proof.
  apply (proj2 (proj2 (@copyIfNonExistent_idempotent plugin
           "/opt/toolkit/cli/tasks/../../config/tsconfig.plugin.local.json"
           "/work/plugin/tsconfig.json" settled))).
  vm_compute. eauto.
Defined.

(** The prettier check with fix=true on the fresh project, whose one source
    conforms. *)
Lemma prettierCheckPlugin_fix_conforming_witness :
  outcome (@prettierCheckPlugin plugin (mkFixable (Some true)) fresh) =
    Rejected (Error "Prettier failed").
Proof.
  assert (Hbase : @loadedConfig plugin fresh = Resolved ∅) by (vm_compute; reflexivity).
  assert (Hsome : @discovered plugin fresh <> []) by (vm_compute; discriminate).
  assert (Hall : Forall (fun p => exists c, files fresh !! p = Some c /\
                                  @prettier_check plugin c (configFor ∅ p) = true)
                   (@discovered plugin fresh)).
  { change (@discovered plugin fresh) with [a_ts].
    repeat constructor. exists formatted50. split; vm_compute; reflexivity. }
  exact (proj1 (proj2 (@prettierCheckPlugin_fix_conforming plugin ∅ fresh Hbase Hsome Hall))).
Defined.

End Runs.

(** ** More on the prettier check *)

Section PrettierRuns.
Context `{Collaborators}.

(** The prettier check, step by step. *)
Lemma prettierCheckPlugin_trace o fs :
  prettierCheckPlugin o fs =
    match loadedConfig fs with
    | Rejected e =>
        (Rejected e, fs, [SpinnerStart "Prettier check"; SpinnerFail "Prettier check"])
    | Resolved base =>
        match promise_all (map (checkFile (fix_ o) base) (discovered fs)) fs with
        | (Rejected e, fs1, evs) =>
            (Rejected e, fs1,
             SpinnerStart "Prettier check" :: evs ++ [SpinnerFail "Prettier check"])
        | (Resolved results, fs1, evs) =>
            if (0 <? length (failed results))%nat
            then
              (Rejected (Error "Prettier failed"), fs1,
               SpinnerStart "Prettier check" :: evs ++
               ConsoleLog (newline +:+ "Fix Prettier issues in following files:") ::
               map (fun r => ConsoleLog (path r)) (failed results) ++
               [ConsoleLog (newline +:+ "Run toolkit:dev to fix errors");
                SpinnerFail "Prettier check"])
            else
              (Resolved tt, fs1,
               SpinnerStart "Prettier check" :: evs ++ [SpinnerSucceed "Prettier check"])
        end
    end.
Proof.
  unfold prettierCheckPlugin, useSpinner, loadedConfig, discovered, failed,
    bind, promise_all2, readFile, settle, getStylesSources, getTypescriptSources, ret; simpl.
  destruct (fs_readFile _ fs) as [text|e]; simpl; [| reflexivity].
  destruct (JSON_parse text) as [base|e]; simpl; [| reflexivity].
  rewrite app_nil_r.
  destruct (promise_all _ fs) as [[[results|e] fs1] evs]; simpl; [| reflexivity].
  destruct (0 <? _)%nat; simpl; [| rewrite app_nil_r; reflexivity].
  unfold throw. rewrite (forEach_console_log path). simpl.
  rewrite <- ?app_assoc. simpl. rewrite <- ?app_assoc. reflexivity.
Qed.

(** The checks without fix: nothing is printed or written; they reject at
    an unreadable path and otherwise record a failure for every path. *)
Lemma checks_without_fix_outcome fix' base paths fs :
  truthy fix' = false ->
  let ran := promise_all (map (checkFile fix' base) paths) fs in
  events ran = [] /\
  disk_after ran = fs /\
  match outcome ran with
  | Resolved results => results = map (fun p => mkCheck p false) paths
  | Rejected e => exists p, p ∈ paths /\ files fs !! p = None /\ e = SystemError "ENOENT" p
  end.
Proof.
  intros Hfix. cbv zeta. induction paths as [|q rest (IHev & IHdisk & IHout)].
  - repeat split.
  - cbn [map promise_all]. rewrite (checkFile_without_fix fix' base q fs Hfix).
    unfold events, disk_after, outcome in *.
    destruct (files fs !! q) as [c|] eqn:Hq;
      destruct (promise_all _ fs) as [[[results|e] fs1] evs]; simpl in *; subst;
      repeat split.
    + destruct IHout as (p & Hin & Hp & He). exists p. split; [right; exact Hin | auto].
    + exists q. split; [left | auto].
    + exists q. split; [left | auto].
Qed.

(** A path whose check rejects, on every disk that holds for it what [fs]
    holds, makes the checks reject. *)
Lemma checks_reject fix' base paths fs p :
  p ∈ paths ->
  (forall fs', files fs' !! p = files fs !! p ->
     is_resolved (outcome (checkFile fix' base p fs')) = false) ->
  is_resolved (outcome (promise_all (map (checkFile fix' base) paths) fs)) = false.
Proof.
  intros Hin Hrej.
  assert (Hgen : forall fs', files fs' !! p = files fs !! p ->
            is_resolved (outcome (promise_all (map (checkFile fix' base) paths) fs')) = false).
  { induction paths as [|q rest IH]; intros fs' Hsame; [inversion Hin |].
    cbn [map promise_all]. destruct (decide (q = p)) as [-> | Hne].
    - specialize (Hrej fs' Hsame). unfold outcome in *.
      destruct (checkFile fix' base p fs') as [[[a|e] fs1] ev1]; [discriminate |].
      destruct (promise_all _ fs1) as [[rs fs2] ev2]. reflexivity.
    - assert (Hrest : p ∈ rest) by (inversion Hin; subst; [congruence | assumption]).
      destruct (checkFile_frame fix' base q fs') as [_ Hframe]. cbv zeta in Hframe.
      specialize (IH Hrest (disk_after (checkFile fix' base q fs'))).
      rewrite Hframe in IH by congruence. specialize (IH Hsame).
      unfold outcome, disk_after in *.
      destruct (checkFile fix' base q fs') as [[r1 fs1] ev1]; simpl in *.
      destruct (promise_all _ fs1) as [[[l|e] fs2] ev2]; [discriminate |].
      destruct r1; reflexivity. }
  apply Hgen. reflexivity.
Qed.

(** A check that resolves with a success has rewritten its file: the file
    failed the format check, the formatter answered more than 10 characters
    and the write was accepted. *)
Lemma checkFile_success base q fs r fs1 evs :
  checkFile (Some true) base q fs = (Resolved r, fs1, evs) ->
  success r = true ->
  fs1 = disk_after (checkFile (Some true) base q fs) /\
  exists c c',
    files fs !! q = Some c /\
    prettier_check c (configFor base q) = false /\
    prettier_format c (configFor base q) = Resolved c' /\
    10 < String.length c' /\
    q ∉ readonly fs.
Proof.
  intros Hrun Hok. split; [rewrite Hrun; reflexivity |].
  rewrite checkFile_with_fix in Hrun.
  destruct (files fs !! q) as [c|]; [| discriminate].
  cbv zeta in Hrun.
  destruct (prettier_check c _) eqn:Hcheck;
    [inversion Hrun; subst; discriminate |].
  destruct (prettier_format c _) as [c'|e] eqn:Hformat; [| discriminate].
  destruct (10 <? String.length c')%nat eqn:Hlen;
    [| inversion Hrun; subst; discriminate].
  destruct (decide (q ∈ readonly fs)); [inversion Hrun; subst; discriminate |].
  exists c, c'. apply Nat.ltb_lt in Hlen. auto.
Qed.

(** When the checks with fix=true resolve without a recorded failure, every
    path, as the disk held it at the start, failed the format check, was
    given an answer longer than 10 and could be written. *)
Lemma checks_all_fixed base paths fs results :
  outcome (promise_all (map (checkFile (Some true) base) paths) fs) = Resolved results ->
  failed results = [] ->
  Forall (fun p => exists c c',
            files fs !! p = Some c /\
            prettier_check c (configFor base p) = false /\
            prettier_format c (configFor base p) = Resolved c' /\
            10 < String.length c' /\
            p ∉ readonly fs) paths.
Proof.
  revert fs results. induction paths as [|q rest IH]; intros fs results Hout Hnone;
    [constructor |].
  cbn [map promise_all] in Hout.
  destruct (checkFile (Some true) base q fs) as [[r1 fs1] ev1] eqn:Hq.
  pose proof (checkFile_frame (Some true) base q fs) as [Hro Hframe].
  cbv zeta in Hro, Hframe. rewrite Hq in Hro, Hframe. unfold disk_after in Hro, Hframe.
  simpl in Hro, Hframe.
  specialize (IH fs1). unfold outcome in *.
  destruct (promise_all _ fs1) as [[rs fs2] ev2]; simpl in *.
  destruct r1 as [a|e]; [| discriminate].
  destruct rs as [l|e]; [| discriminate].
  inversion Hout; subst results. unfold failed in Hnone. simpl in Hnone.
  destruct (success a) eqn:Hok; simpl in Hnone; [| discriminate].
  destruct (checkFile_success base q fs a fs1 ev1 Hq Hok) as (_ & Hhead).
  specialize (IH l eq_refl Hnone).
  constructor; [exact Hhead |].
  apply Forall_forall. intros p Hin.
  destruct (decide (p = q)) as [-> | Hne]; [exact Hhead |].
  rewrite Forall_forall in IH. destruct (IH p Hin) as (c & c' & Hc & Hrest).
  exists c, c'. rewrite <- Hframe by assumption. rewrite <- Hro. auto.
Qed.

(** X5. An empty source tree passes the prettier check, with or without fix:
    once the configuration is loaded, the stage resolves, writes nothing and
    prints nothing. *)
Theorem prettierCheckPlugin_empty_tree (o : Fixable) (base : gmap string string) (fs : FS) :
  loadedConfig fs = Resolved base ->
  discovered fs = [] ->
  prettierCheckPlugin o fs =
    (Resolved tt, fs, [SpinnerStart "Prettier check"; SpinnerSucceed "Prettier check"]).
Proof.
  intros Hbase Hnone. rewrite prettierCheckPlugin_trace, Hbase, Hnone. reflexivity.
Qed.

(** X6. When the formatting configuration cannot be read or parsed, the stage
    rejects with that error before any source is checked: nothing is
    written and nothing is printed. *)
Theorem prettierCheckPlugin_without_config (o : Fixable) (e : JsError) (fs : FS) :
  loadedConfig fs = Rejected e ->
  prettierCheckPlugin o fs =
    (Rejected e, fs, [SpinnerStart "Prettier check"; SpinnerFail "Prettier check"]).
Proof.
  intros Hbase. rewrite prettierCheckPlugin_trace, Hbase. reflexivity.
Qed.

(** Without fix: the outcome of the stage in terms of what it loads and
    discovers. *)
Lemma check_resolves_iff fix' fs :
  fix' <> Some true ->
  is_resolved (outcome (prettierCheckPlugin (mkFixable fix') fs)) =
    is_resolved (loadedConfig fs) && negb (nonempty (discovered fs)).
Proof.
  intros Hfix.
  assert (Hno : truthy fix' = false) by (destruct fix' as [[]|]; [congruence | |]; reflexivity).
  rewrite prettierCheckPlugin_trace. simpl.
  destruct (loadedConfig fs) as [base|e]; [| reflexivity].
  destruct (checks_without_fix_outcome fix' base (discovered fs) fs Hno) as (_ & _ & Hout).
  unfold outcome in *.
  destruct (promise_all _ fs) as [[[results|e] fs1] evs]; simpl in *.
  - subst results. destruct (discovered fs) as [|p rest]; reflexivity.
  - destruct Hout as (p & Hin & _). destruct (discovered fs); [inversion Hin | reflexivity].
Qed.

(** X7. Without fix, the prettier check resolves exactly when its configuration
    loads and no source is discovered: any discovered source, conforming or
    not, makes it reject. *)
Theorem prettierCheckPlugin_check_resolves (fix' : option bool) (fs : FS) :
  fix' <> Some true ->
  is_resolved (outcome (prettierCheckPlugin (mkFixable fix') fs)) =
    is_resolved (loadedConfig fs) && negb (nonempty (discovered fs)).
Proof. apply check_resolves_iff. Qed.

(** X8. Without fix, on readable sources, the stage reports every discovered
    path, the style sheets first, in the order of discovery, between its two
    banner lines, and rejects; it writes nothing. *)
Theorem prettierCheckPlugin_check_report (fix' : option bool) (base : gmap string string)
    (fs : FS) :
  fix' <> Some true ->
  loadedConfig fs = Resolved base ->
  discovered fs <> [] ->
  Forall (fun p => is_Some (files fs !! p)) (discovered fs) ->
  prettierCheckPlugin (mkFixable fix') fs =
    (Rejected (Error "Prettier failed"), fs,
     SpinnerStart "Prettier check" ::
     ConsoleLog (newline +:+ "Fix Prettier issues in following files:") ::
     map ConsoleLog (discovered fs) ++
     [ConsoleLog (newline +:+ "Run toolkit:dev to fix errors");
      SpinnerFail "Prettier check"]).
Proof.
  intros Hfix Hbase Hsome Hread.
  assert (Hno : truthy fix' = false) by (destruct fix' as [[]|]; [congruence | |]; reflexivity).
  rewrite prettierCheckPlugin_trace, Hbase. simpl.
  destruct (checks_without_fix_outcome fix' base (discovered fs) fs Hno)
    as (Hev & Hdisk & Hout).
  unfold outcome, events, disk_after in *.
  destruct (promise_all _ fs) as [[[results|e] fs1] evs]; simpl in *; subst.
  - assert (Hall : forall paths, failed (map (fun p => mkCheck p false) paths) =
                                 map (fun p => mkCheck p false) paths).
    { clear. unfold failed. induction paths as [|p rest IH]; [reflexivity |].
      simpl. f_equal. exact IH. }
    rewrite Hall, length_map, map_map. simpl.
    destruct (discovered fs) as [|p rest]; [congruence |]. reflexivity.
  - destruct Hout as (p & Hin & Hp & _). rewrite Forall_forall in Hread.
    destruct (Hread p Hin) as [c Hc]. congruence.
Qed.

(** X9. With fix=true the stage resolves only when every discovered source was
    rewritten: each of them failed the format check, was given an answer
    longer than 10 and accepted the write.  A source that conforms already
    is enough to make the stage reject. *)
Theorem prettierCheckPlugin_fix_resolves (base : gmap string string) (fs : FS) :
  loadedConfig fs = Resolved base ->
  outcome (prettierCheckPlugin (mkFixable (Some true)) fs) = Resolved tt ->
  Forall (fun p => exists c c',
            files fs !! p = Some c /\
            prettier_check c (configFor base p) = false /\
            prettier_format c (configFor base p) = Resolved c' /\
            10 < String.length c' /\
            p ∉ readonly fs) (discovered fs).
Proof.
  intros Hbase Hout. rewrite prettierCheckPlugin_trace, Hbase in Hout. simpl in Hout.
  destruct (promise_all _ fs) as [[[results|e] fs1] evs] eqn:Hchecks;
    [| discriminate].
  destruct (0 <? length (failed results))%nat eqn:Hfailed; [discriminate |].
  apply (checks_all_fixed base (discovered fs) fs results).
  - unfold outcome. rewrite Hchecks. reflexivity.
  - apply Nat.ltb_ge in Hfailed. destruct (failed results); [reflexivity | simpl in Hfailed; lia].
Qed.

(** X11. Whatever the fix flag, a discovered source that cannot be read makes
    the stage reject. *)
Theorem prettierCheckPlugin_unreadable (o : Fixable) (fs : FS) (p : string) :
  p ∈ discovered fs ->
  files fs !! p = None ->
  is_resolved (outcome (prettierCheckPlugin o fs)) = false.
Proof.
  intros Hin Hp. rewrite prettierCheckPlugin_trace.
  destruct (loadedConfig fs) as [base|e]; [| reflexivity].
  assert (Hrej : is_resolved (outcome (promise_all (map (checkFile (fix_ o) base)
                                                      (discovered fs)) fs)) = false).
  { apply (checks_reject (fix_ o) base (discovered fs) fs p Hin).
    intros fs' Hsame. unfold checkFile, bind, readFile, fs_readFile, outcome.
    rewrite Hsame, Hp. reflexivity. }
  unfold outcome in *.
  destruct (promise_all _ fs) as [[[results|e] fs1] evs]; [discriminate | reflexivity].
Qed.

(** X12. With fix=true, a discovered source that fails the format check and on
    which the formatter throws makes the stage reject. *)
Theorem prettierCheckPlugin_formatter_throws (base : gmap string string) (fs : FS)
    (p c : string) (e : JsError) :
  loadedConfig fs = Resolved base ->
  p ∈ discovered fs ->
  files fs !! p = Some c ->
  prettier_check c (configFor base p) = false ->
  prettier_format c (configFor base p) = Rejected e ->
  is_resolved (outcome (prettierCheckPlugin (mkFixable (Some true)) fs)) = false.
Proof.
  intros Hbase Hin Hp Hcheck Hformat. rewrite prettierCheckPlugin_trace, Hbase. simpl.
  assert (Hrej : is_resolved (outcome (promise_all (map (checkFile (Some true) base)
                                                      (discovered fs)) fs)) = false).
  { apply (checks_reject (Some true) base (discovered fs) fs p Hin).
    intros fs' Hsame. rewrite checkFile_with_fix, Hsame, Hp. cbv zeta.
    rewrite Hcheck, Hformat. reflexivity. }
  unfold outcome in *.
  destruct (promise_all _ fs) as [[[results|e'] fs1] evs]; [discriminate | reflexivity].
Qed.

(** The checks with fix=true over distinct paths that can all be fixed:
    each path is rewritten with the formatter's answer to its text, one
    after the other, and nothing else changes. *)
Lemma checks_fix_all base paths fs :
  NoDup paths ->
  Forall (fun p => exists c c',
            files fs !! p = Some c /\
            prettier_check c (configFor base p) = false /\
            prettier_format c (configFor base p) = Resolved c' /\
            10 < String.length c' /\
            p ∉ readonly fs) paths ->
  exists fs',
    promise_all (map (checkFile (Some true) base) paths) fs =
      (Resolved (map (fun p => mkCheck p true) paths), fs',
       map (fun p => ConsoleLog ("Fixed: " +:+ p)) paths) /\
    readonly fs' = readonly fs /\
    (forall p, p ∉ paths -> files fs' !! p = files fs !! p) /\
    Forall (fun p => exists c c',
              files fs !! p = Some c /\
              prettier_format c (configFor base p) = Resolved c' /\
              files fs' !! p = Some c') paths.
Proof.
  intros Hdistinct. revert fs.
  induction Hdistinct as [|q rest Hfresh _ IH]; intros fs Hall.
  - exists fs. repeat split. constructor.
  - inversion Hall as [|? ? (c & c' & Hc & Hcheck & Hformat & Hlen & Hrw) Hrest]; subst.
    assert (Hq : checkFile (Some true) base q fs =
                 (Resolved (mkCheck q true), set_file q c' fs, [ConsoleLog ("Fixed: " +:+ q)])).
    { rewrite checkFile_with_fix, Hc. cbv zeta. rewrite Hcheck, Hformat.
      apply Nat.ltb_lt in Hlen. rewrite Hlen.
      destruct (decide (q ∈ readonly fs)); [contradiction | reflexivity]. }
    destruct (IH (set_file q c' fs)) as (fs' & Hrun & Hro & Hframe & Hdone).
    { rewrite Forall_forall in Hrest |- *. intros p Hin.
      destruct (Hrest p Hin) as (d & d' & Hd & Hrest').
      exists d, d'. simpl. rewrite lookup_insert_ne by (intros ->; contradiction). auto. }
    exists fs'. cbn [map promise_all]. rewrite Hq, Hrun.
    split; [reflexivity |]. split; [exact Hro |]. split.
    + intros p Hp. rewrite Hframe by (intros Hin; apply Hp; right; exact Hin).
      simpl. apply lookup_insert_ne. intros ->. apply Hp. left.
    + constructor.
      * exists c, c'. rewrite Hframe by assumption. simpl. rewrite lookup_insert_eq. auto.
      * rewrite Forall_forall in Hdone |- *. intros p Hin.
        destruct (Hdone p Hin) as (d & d' & Hd & Hformat' & Hafter).
        exists d, d'. simpl in Hd.
        rewrite lookup_insert_ne in Hd by (intros ->; contradiction). auto.
Qed.

(** X10. With fix=true, when the discovered sources are distinct and each of
    them fails the format check, is given an answer longer than 10 and can be
    written, the stage resolves: every source holds the formatter's answer
    to its text, the lines printed are one line [Fixed:] per source, in some
    order, and no other path changes.  The disk that the checks leave is the
    same in whichever order they are run. *)
Theorem prettierCheckPlugin_fixes_all (base : gmap string string) (fs : FS) :
  loadedConfig fs = Resolved base ->
  NoDup (discovered fs) ->
  Forall (fun p => exists c c',
            files fs !! p = Some c /\
            prettier_check c (configFor base p) = false /\
            prettier_format c (configFor base p) = Resolved c' /\
            10 < String.length c' /\
            p ∉ readonly fs) (discovered fs) ->
  let ran := prettierCheckPlugin (mkFixable (Some true)) fs in
  outcome ran = Resolved tt /\
  printed (events ran) ≡ₚ map (fun p => "Fixed: " +:+ p) (discovered fs) /\
  Forall (fun p => exists c c',
            files fs !! p = Some c /\
            prettier_format c (configFor base p) = Resolved c' /\
            files (disk_after ran) !! p = Some c') (discovered fs) /\
  (forall p, p ∉ discovered fs -> files (disk_after ran) !! p = files fs !! p) /\
  (forall order, order ≡ₚ discovered fs ->
     disk_after (promise_all (map (checkFile (Some true) base) order) fs) = disk_after ran).
Proof.
  intros Hbase Hdistinct Hall. cbv zeta.
  destruct (checks_fix_all base (discovered fs) fs Hdistinct Hall)
    as (fs' & Hrun & Hro & Hframe & Hdone).
  rewrite prettierCheckPlugin_trace, Hbase. cbn [fix_]. rewrite Hrun.
  assert (Hnone : forall paths, failed (map (fun p => mkCheck p true) paths) = []).
  { clear. unfold failed. induction paths as [|p rest IH]; [reflexivity | exact IH]. }
  rewrite Hnone. simpl. unfold outcome, events, disk_after. simpl.
  split; [reflexivity |]. split; [| split; [assumption | split; [assumption |]]].
  - unfold printed. rewrite omap_app. simpl. rewrite app_nil_r.
    destruct (calls_of_console_lines (fun p => "Fixed: " +:+ p) (discovered fs))
      as (_ & _ & Hlines).
    unfold printed in Hlines. rewrite Hlines. reflexivity.
  - intros order Horder.
    assert (Hdistinct' : NoDup order) by (rewrite Horder; exact Hdistinct).
    assert (Hall' : Forall (fun p => exists c c',
                      files fs !! p = Some c /\
                      prettier_check c (configFor base p) = false /\
                      prettier_format c (configFor base p) = Resolved c' /\
                      10 < String.length c' /\
                      p ∉ readonly fs) order) by (rewrite Horder; exact Hall).
    destruct (checks_fix_all base order fs Hdistinct' Hall')
      as (fs'' & Hrun' & Hro' & Hframe' & Hdone').
    rewrite Hrun'. simpl.
    destruct fs' as [files' ro'], fs'' as [files'' ro'']. simpl in *.
    f_equal; [| congruence].
    apply map_eq. intros p.
    destruct (decide (p ∈ discovered fs)) as [Hin | Hout].
    + rewrite Forall_forall in Hdone, Hdone'.
      destruct (Hdone p Hin) as (c & c' & Hc & Hformat & ->).
      assert (Hin' : p ∈ order) by (rewrite Horder; exact Hin).
      destruct (Hdone' p Hin') as (d & d' & Hd & Hformat' & ->).
      congruence.
    + rewrite Hframe by assumption.
      apply Hframe'. rewrite Horder. exact Hout.
Qed.

End PrettierRuns.

(** ** More on the bootstrap *)

Section BootstrapRuns.
Context `{Collaborators}.

(** X1. When an ensure operation resolves, the destination exists afterwards;
    it holds the source's text when it was absent before, and its own text
    otherwise; no other path and no permission has changed. *)
Theorem copyIfNonExistent_ensures (src dest : string) (fs : FS) :
  outcome (copyIfNonExistent src dest fs) = Resolved tt ->
  let after := disk_after (copyIfNonExistent src dest fs) in
  is_Some (files after !! dest) /\
  files after !! dest =
    (match files fs !! dest with Some d => Some d | None => files fs !! src end) /\
  (forall p, p <> dest -> files after !! p = files fs !! p) /\
  readonly after = readonly fs.
Proof.
  cbv zeta. rewrite copyIfNonExistent_cases. unfold outcome, disk_after.
  destruct (files fs !! src) as [c|] eqn:Hs; [| discriminate].
  destruct (files fs !! dest) as [d|] eqn:Hd; simpl.
  - intros _. rewrite Hd. repeat split; eauto.
  - destruct (decide (dest ∈ readonly fs)); [discriminate |]. intros _. simpl.
    rewrite lookup_insert_eq. repeat split; eauto.
    intros p Hp. apply lookup_insert_ne. congruence.
Qed.

(** X2. An ensure operation whose source is absent rejects with [ENOENT] for
    the source and leaves the disk as it was, whether or not the destination
    exists. *)
Theorem copyIfNonExistent_without_source (src dest : string) (fs : FS) :
  files fs !! src = None ->
  copyIfNonExistent src dest fs = (Rejected (SystemError "ENOENT" src), fs, []).
Proof. intros Hs. rewrite copyIfNonExistent_cases, Hs. reflexivity. Qed.

(** X4. On a toolkit that has its two templates, the bootstrap changes nothing
    on the disk and prints nothing; it resolves exactly when the project
    already has both its [tsconfig.json] and its [.prettierrc.js]. *)
Theorem prepare_with_templates (fs : FS) :
  is_Some (files fs !! resolvePath dirname "../../config/tsconfig.plugin.local.json") ->
  is_Some (files fs !! resolvePath dirname "../../config/prettier.plugin.rc.js") ->
  disk_after (prepare tt fs) = fs /\
  printed (events (prepare tt fs)) = [] /\
  is_resolved (outcome (prepare tt fs)) =
    bool_decide (is_Some (files fs !! resolvePath cwd "tsconfig.json")) &&
    bool_decide (is_Some (files fs !! resolvePath cwd ".prettierrc.js")).
Proof.
  intros [t1 Ht1] [t2 Ht2].
  unfold prepare, useSpinner, bind, ret, outcome, disk_after, events. cbn [promise_all].
  rewrite (copyIfNonExistent_cases (resolvePath cwd "tsconfig.json")), Ht1.
  assert (Hfirst : forall c : option string,
            match c with
            | Some _ => (@Resolved unit tt, fs, @nil (Event Configuration))
            | None => (Rejected (SystemError "ENOENT" (resolvePath cwd "tsconfig.json")), fs, [])
            end =
            (match c with
             | Some _ => Resolved tt
             | None => Rejected (SystemError "ENOENT" (resolvePath cwd "tsconfig.json"))
             end, fs, [])) by (intros [c|]; reflexivity).
  rewrite Hfirst. clear Hfirst.
  rewrite (copyIfNonExistent_cases (resolvePath cwd ".prettierrc.js")), Ht2.
  destruct (files fs !! resolvePath cwd "tsconfig.json") as [c1|];
    destruct (files fs !! resolvePath cwd ".prettierrc.js") as [c2|]; simpl;
    repeat split.
Qed.

End BootstrapRuns.

(** ** Splitting a file name at [src] *)

Section Split.

Lemma append_cons (x : ascii) (a b : string) : String x a +:+ b = String x (a +:+ b).
Proof. reflexivity. Qed.

Lemma append_assoc (a b c : string) : (a +:+ b) +:+ c = a +:+ (b +:+ c).
Proof.
  induction a as [|x a IH]; [reflexivity |]. rewrite !append_cons, IH. reflexivity.
Qed.

Lemma append_nil_r (a : string) : a +:+ "" = a.
Proof. induction a as [|x a IH]; [reflexivity |]. rewrite append_cons, IH. reflexivity. Qed.

Lemma length_append (a b : string) :
  String.length (a +:+ b) = String.length a + String.length b.
Proof.
  induction a as [|x a IH]; [reflexivity |]. rewrite append_cons. simpl. rewrite IH. reflexivity.
Qed.

(** A string that starts with [sep] is [sep] followed by a rest. *)
Lemma prefix_split (sep s : string) :
  String.prefix sep s = true -> exists rest, s = sep +:+ rest.
Proof.
  revert s. induction sep as [|x sep IH]; intros s Hpre.
  - exists s. reflexivity.
  - destruct s as [|y s]; [discriminate |]. simpl in Hpre.
    destruct (ascii_dec x y) as [-> | _]; [| discriminate].
    destruct (IH s Hpre) as [rest ->]. exists rest. reflexivity.
Qed.

Lemma prefix_append (sep rest : string) : String.prefix sep (sep +:+ rest) = true.
Proof.
  induction sep as [|x sep IH]; simpl; [destruct rest; reflexivity |].
  destruct (ascii_dec x x); [exact IH | congruence].
Qed.

(** The prefix test reads no further than the length of [sep]. *)
Lemma prefix_long (sep a x : string) :
  String.length sep <= String.length a ->
  String.prefix sep (a +:+ x) = String.prefix sep a.
Proof.
  revert a. induction sep as [|c sep IH]; intros a Hlen.
  - destruct a, x; reflexivity.
  - destruct a as [|d a]; simpl in Hlen; [lia |]. simpl.
    destruct (ascii_dec c d); [apply IH; lia | reflexivity].
Qed.

(** Dropping the rest of a matched separator. *)
Lemma split_from_skip (sep dropped cur s : string) :
  split_from sep (String.length dropped) cur (dropped +:+ s) = split_from sep 0 cur s.
Proof.
  induction dropped as [|x dropped IH]; simpl; [destruct s; reflexivity | exact IH].
Qed.

(** A text without the separator is one piece. *)
Lemma split_from_absent (sep cur s : string) :
  occurs sep s = false -> split_from sep 0 cur s = [cur +:+ s].
Proof.
  revert cur. induction s as [|x s IH]; intros cur Hno; simpl.
  - rewrite append_nil_r. reflexivity.
  - simpl in Hno. apply orb_false_iff in Hno as [Hhere Hlater].
    simpl in Hhere. rewrite Hhere, (IH _ Hlater), append_assoc. reflexivity.
Qed.

(** Cutting at a separator that starts the text. *)
Lemma split_from_match (sep cur rest : string) :
  sep <> "" ->
  split_from sep 0 cur (sep +:+ rest) = cur :: split_from sep 0 "" rest.
Proof.
  intros Hsep. pose proof (prefix_append sep rest) as Hpre.
  destruct sep as [|y sep']; [congruence |].
  rewrite append_cons in *. cbn [split_from]. rewrite Hpre.
  f_equal. cbn [String.length]. rewrite Nat.sub_1_r. simpl Nat.pred.
  apply split_from_skip.
Qed.

(** The first cut: when no occurrence of the separator starts inside
    [before], the first piece is [before] and the splitting goes on after
    the separator. *)
Lemma split_from_first (stem : string) (z : ascii) (before cur rest : string) :
  let sep := stem +:+ String z "" in
  occurs sep (before +:+ stem) = false ->
  split_from sep 0 cur (before +:+ sep +:+ rest) =
    (cur +:+ before) :: split_from sep 0 "" rest.
Proof.
  cbv zeta. set (sep := stem +:+ String z ""). revert cur.
  assert (Hlen : String.length sep = S (String.length stem))
    by (unfold sep; rewrite length_append; simpl; lia).
  assert (Hsep : sep <> "") by (intros Heq; rewrite Heq in Hlen; discriminate).
  induction before as [|x before IH]; intros cur Hno.
  - change ("" +:+ sep +:+ rest) with (sep +:+ rest).
    rewrite append_nil_r. apply split_from_match. exact Hsep.
  - rewrite append_cons in Hno. cbn [occurs] in Hno.
    apply orb_false_iff in Hno as [Hhere Hlater].
    rewrite append_cons. cbn [split_from].
    assert (Hpre : String.prefix sep (String x (before +:+ sep +:+ rest)) = false).
    { rewrite <- Hhere. rewrite <- !append_cons. unfold sep at 2.
      rewrite (append_assoc stem), <- (append_assoc (String x before) stem).
      apply prefix_long. rewrite Hlen, length_append. simpl. lia. }
    rewrite Hpre, (IH _ Hlater), append_assoc. reflexivity.
Qed.

(** X17. Joining the pieces of a split with the separator gives the text back. *)
Theorem split_joinWith (sep s : string) :
  sep <> "" -> joinWith sep (split sep s) = s.
Proof.
  intros Hsep. unfold split.
  assert (Hsome : forall skip cur t, split_from sep skip cur t <> []).
  { intros skip cur t. revert skip cur. induction t as [|x t IH]; intros skip cur.
    - discriminate.
    - cbn [split_from]. destruct skip; [| apply IH].
      destruct (String.prefix sep (String x t)); [discriminate | apply IH]. }
  assert (Hgen : forall n t cur, String.length t <= n ->
            joinWith sep (split_from sep 0 cur t) = cur +:+ t).
  { induction n as [|n IH]; intros t cur Hn.
    - destruct t; [| simpl in Hn; lia]. simpl. rewrite append_nil_r. reflexivity.
    - destruct (String.prefix sep t) eqn:Hpre.
      + destruct (prefix_split _ _ Hpre) as [rest ->].
        rewrite split_from_match by assumption.
        assert (Hrec : joinWith sep (split_from sep 0 "" rest) = rest).
        { rewrite IH; [reflexivity |]. rewrite length_append in Hn.
          destruct sep; [congruence | simpl in Hn; lia]. }
        pose proof (Hsome 0 "" rest) as Hne.
        destruct (split_from sep 0 "" rest) as [|piece pieces]; [congruence |].
        cbn [joinWith]. cbn [joinWith] in Hrec. rewrite Hrec. reflexivity.
      + destruct t as [|x t]; [simpl; rewrite append_nil_r; reflexivity |].
        cbn [split_from]. rewrite Hpre.
        rewrite IH by (simpl in Hn; lia). rewrite append_assoc. reflexivity. }
  apply (Hgen (String.length s)). lia.
Qed.

End Split.

(** ** More on the lint check *)

Section LintRuns.
Context `{Collaborators}.

(** X15. The line of a failure in a file below the one [src] of its name: when
    the name is [root], then [src], then [rel], and [src] occurs nowhere
    else in it, the line shows [rel], the line number counted from 1 and the
    column counted from 0. *)
Theorem failureLine_below_src (f : RuleFailure) (root rel : string) :
  getFileName f = root +:+ "src" +:+ rel ->
  occurs "src" (root +:+ "sr") = false ->
  occurs "src" rel = false ->
  failureLine f =
    (if String.eqb (getRuleSeverity f) "warning" then "WARNING" else "ERROR") +:+ ": " +:+
    rel +:+ "[" +:+ show_nat (line f + 1) +:+ ":" +:+ show_nat (character f) +:+ "]: " +:+
    getFailure f.
Proof.
  intros Hname Hroot Hrel. unfold failureLine, split. rewrite Hname.
  pose proof (split_from_first "sr" "c" root "" rel Hroot) as Hcut. cbv zeta in Hcut.
  change ("sr" +:+ "c") with "src" in Hcut. rewrite Hcut.
  rewrite (split_from_absent "src" "" rel Hrel). reflexivity.
Qed.

(** X16. The line of a failure in a file whose name has no [src]: the path is
    printed as [undefined]. *)
Theorem failureLine_outside_src (f : RuleFailure) :
  occurs "src" (getFileName f) = false ->
  failureLine f =
    (if String.eqb (getRuleSeverity f) "warning" then "WARNING" else "ERROR") +:+ ": " +:+
    "undefined" +:+ "[" +:+ show_nat (line f + 1) +:+ ":" +:+ show_nat (character f) +:+
    "]: " +:+ getFailure f.
Proof.
  intros Hno. unfold failureLine, split.
  rewrite (split_from_absent "src" "" (getFileName f) Hno). reflexivity.
Qed.

End LintRuns.

(** ** The calls of a build *)

Section Calls.
Context `{Collaborators}.

Lemma external_app (evs1 evs2 : list (Event Configuration)) :
  external (evs1 ++ evs2) = external evs1 ++ external evs2.
Proof. apply List.filter_app. Qed.

Lemma internal_ret {A} (a : A) : internal (ret a).
Proof. intros fs. reflexivity. Qed.

Lemma internal_throw {A} (e : JsError) : internal (@throw _ A e).
Proof. intros fs. reflexivity. Qed.

Lemma internal_settle {A} (r : Settled A) : internal (settle r).
Proof. intros fs. reflexivity. Qed.

Lemma internal_effect {A} (f : FS -> Settled A * FS) : internal (effect f).
Proof. intros fs. unfold effect, events. destruct (f fs). reflexivity. Qed.

Lemma internal_console_log text : internal (console_log text).
Proof. intros fs. reflexivity. Qed.

Lemma internal_readFile p : internal (readFile p).
Proof. intros fs. reflexivity. Qed.

Lemma internal_bind {A B} (m : Task A) (k : A -> Task B) :
  internal m -> (forall a, internal (k a)) -> internal (bind m k).
Proof.
  intros Hm Hk fs. specialize (Hm fs). unfold bind, events in *.
  destruct (m fs) as [[[a|e] fs1] ev1]; simpl in *; [| exact Hm].
  specialize (Hk a fs1). unfold events in Hk.
  destruct (k a fs1) as [[r fs2] ev2]; simpl in *.
  rewrite external_app, Hm, Hk. reflexivity.
Qed.

Lemma internal_catch {A} (m : Task A) (handler : JsError -> Task A) :
  internal m -> (forall e, internal (handler e)) -> internal (catch m handler).
Proof.
  intros Hm Hh fs. specialize (Hm fs). unfold catch, events in *.
  destruct (m fs) as [[[a|e] fs1] ev1]; simpl in *; [exact Hm |].
  specialize (Hh e fs1). unfold events in Hh.
  destruct (handler e fs1) as [[r fs2] ev2]; simpl in *.
  rewrite external_app, Hm, Hh. reflexivity.
Qed.

Lemma internal_promise_all {A} (tasks : list (Task A)) :
  Forall internal tasks -> internal (promise_all tasks).
Proof.
  induction 1 as [|t rest Ht _ IH]; intros fs; [reflexivity |].
  cbn [promise_all]. specialize (Ht fs). unfold events in *.
  destruct (t fs) as [[r fs1] ev1]. specialize (IH fs1).
  destruct (promise_all rest fs1) as [[rs fs2] ev2]; simpl in *.
  rewrite external_app, Ht, IH. reflexivity.
Qed.

Lemma internal_promise_all2 {A B} (a : Task A) (b : Task B) :
  internal a -> internal b -> internal (promise_all2 a b).
Proof.
  intros Ha Hb fs. specialize (Ha fs). unfold promise_all2, events in *.
  destruct (a fs) as [[ra fs1] ev1]. specialize (Hb fs1). unfold events in Hb.
  destruct (b fs1) as [[rb fs2] ev2]; simpl in *.
  rewrite external_app, Ha, Hb. reflexivity.
Qed.

Lemma internal_forEach {A} (f : A -> Task unit) (xs : list A) :
  (forall x, internal (f x)) -> internal (forEach f xs).
Proof.
  intros Hf. induction xs as [|x xs IH]; [apply internal_ret |].
  cbn [forEach]. apply internal_bind; [apply Hf | intros _; exact IH].
Qed.

(** The spinner adds no call to those of the work it wraps. *)
Lemma useSpinner_external {O A} label (fn : O -> Task A) options fs :
  external (events (useSpinner label fn options fs)) = external (events (fn options fs)).
Proof.
  unfold useSpinner, events. destruct (fn options fs) as [[r fs1] evs]. simpl.
  unfold external. simpl. rewrite List.filter_app. simpl.
  destruct (is_resolved r); simpl; apply app_nil_r.
Qed.

Lemma internal_copyIfNonExistent src dest : internal (copyIfNonExistent src dest).
Proof.
  apply internal_catch.
  - apply internal_bind; [apply internal_effect | intros _; apply internal_console_log].
  - intros e. destruct (negb _); [apply internal_throw | apply internal_ret].
Qed.

Lemma internal_checkFile fix' base p : internal (checkFile fix' base p).
Proof.
  unfold checkFile. apply internal_bind.
  - apply internal_bind; [apply internal_readFile |]. intros contents. cbv zeta.
    destruct (_ && _); [| apply internal_ret].
    apply internal_bind; [apply internal_settle | intros formatted; apply internal_ret].
  - intros newContents. apply internal_bind; [| intros ok; apply internal_ret].
    cbv zeta. destruct (_ && _ && _).
    + apply internal_catch.
      * apply internal_bind; [apply internal_effect |]. intros _.
        apply internal_bind; [apply internal_console_log | intros _; apply internal_ret].
      * intros e. apply internal_bind; [intros fs; reflexivity | intros _; apply internal_ret].
    + destruct (truthy fix'); [| apply internal_ret].
      apply internal_bind; [apply internal_console_log | intros _; apply internal_ret].
Qed.

Lemma prepare_internal fs : external (events (prepare tt fs)) = [].
Proof.
  unfold prepare. rewrite useSpinner_external.
  apply internal_bind; [| intros _; apply internal_ret].
  apply internal_promise_all. repeat constructor; apply internal_copyIfNonExistent.
Qed.

Lemma prettierCheckPlugin_internal o fs : external (events (prettierCheckPlugin o fs)) = [].
Proof.
  unfold prettierCheckPlugin. rewrite useSpinner_external. cbv zeta.
  apply internal_bind.
  - apply internal_promise_all2.
    + apply internal_bind; [apply internal_readFile | intros c; apply internal_settle].
    + apply internal_bind; [| intros r; apply internal_ret].
      apply internal_promise_all. repeat constructor; intros fs'; reflexivity.
  - intros loaded. apply internal_bind.
    + apply internal_promise_all. apply Forall_forall. intros t Hin.
      apply list_elem_of_In, in_map_iff in Hin. destruct Hin as (p & <- & _).
      apply internal_checkFile.
    + intros settled. destruct (0 <? _)%nat; [| apply internal_ret].
      apply internal_bind; [apply internal_console_log |]. intros _.
      apply internal_bind;
        [apply internal_forEach; intros r; apply internal_console_log |]. intros _.
      apply internal_bind; [apply internal_console_log | intros _; apply internal_throw].
Qed.


(** The cleaning spawns [rimraf], once, however it settles. *)
Lemma clean_external fs :
  external (events (clean tt fs)) = [Spawned "rimraf" [cwd +:+ "/dist"]].
Proof.
  unfold clean. rewrite useSpinner_external. unfold bind, emit, effect, events.
  destruct (execa _ _ fs) as [[[]|e] fs1]; reflexivity.
Qed.


(** X18. A build never resolves: when the cleaning, the bootstrap and the
    prettier check have all resolved, the lint task throws, so the run is
    rejected on every disk and for every coverage flag, and neither the
    tests nor the bundler are ever called: the one outside call of a build
    is the [rimraf] of its first stage. *)
Theorem pluginBuildRunner_never_resolves (coverage : bool) (fs : FS) :
  let ran := pluginBuildRunner (mkBuild coverage) fs in
  is_resolved (outcome ran) = false /\
  external (events ran) = [Spawned "rimraf" [cwd +:+ "/dist"]].
Proof.
  cbv zeta. unfold pluginBuildRunner, outcome, events, bind, ret.
  pose proof (clean_external fs) as Hclean. unfold events in Hclean.
  destruct (clean tt fs) as [[[[]|e1] fs1] ev1]; cbn [fst snd] in *;
    [| split; [reflexivity | exact Hclean]].
  pose proof (prepare_internal fs1) as Hprepare. unfold events in Hprepare.
  destruct (prepare tt fs1) as [[[[]|e2] fs2] ev2]; cbn [fst snd] in *;
    [| split; [reflexivity |]; rewrite external_app, Hclean, Hprepare; reflexivity].
  pose proof (prettierCheckPlugin_internal (mkFixable (Some false)) fs2) as Hprettier.
  unfold events in Hprettier.
  destruct (prettierCheckPlugin _ fs2) as [[[[]|e3] fs3] ev3]; cbn [fst snd] in *;
    [| split; [reflexivity |];
       rewrite !external_app, Hclean, Hprepare, Hprettier; reflexivity].
  rewrite lintPlugin_type_error. cbn [fst snd].
  split; [reflexivity |].
  rewrite !external_app, Hclean, Hprepare, Hprettier. reflexivity.
Qed.

End Calls.

(** ** Further runs on the sample project *)

Module Scenarios.
Import Sample Disks.

(** Ensuring the project's file from the template on a bare project. *)
Lemma copyIfNonExistent_ensures_witness :
  is_Some (files (disk_after (@copyIfNonExistent plugin template_json local_json bare))
             !! local_json).
Proof.
  apply (proj1 (@copyIfNonExistent_ensures plugin template_json local_json bare
                  ltac:(vm_compute; reflexivity))).
Defined.

(** Ensuring the template from the project's absent file. *)
Lemma copyIfNonExistent_without_source_witness :
  @copyIfNonExistent plugin local_json template_json bare =
    (Rejected (SystemError "ENOENT" local_json), bare, []).
Proof.
  apply (@copyIfNonExistent_without_source plugin local_json template_json bare).
  vm_compute. reflexivity.
Defined.

(** The bootstrap leaves the project's own [tsconfig.json] alone. *)
Lemma prepare_frame_witness :
  files (disk_after (@prepare plugin tt configured)) !! local_json =
  files configured !! local_json.
Proof.
  apply (@prepare_frame plugin configured local_json);
    intros Heq; vm_compute in Heq; discriminate Heq.
Defined.

(** The bootstrap on a fresh project, with the templates in place. *)
Lemma prepare_with_templates_witness :
  disk_after (@prepare plugin tt fresh) = fresh /\
  is_resolved (outcome (@prepare plugin tt fresh)) = false.
Proof.
  destruct (@prepare_with_templates plugin fresh) as (Hdisk & _ & Hout);
    [vm_compute; eauto | vm_compute; eauto |].
  split; [exact Hdisk |]. rewrite Hout. vm_compute. reflexivity.
Defined.

(** The prettier check on a project without sources. *)
Lemma prettierCheckPlugin_empty_tree_witness :
  @prettierCheckPlugin plugin (mkFixable (Some false)) bare =
    (Resolved tt, bare, [SpinnerStart "Prettier check"; SpinnerSucceed "Prettier check"]).
Proof.
  apply (@prettierCheckPlugin_empty_tree plugin (mkFixable (Some false)) ∅ bare);
    vm_compute; reflexivity.
Defined.

(** The prettier check on a toolkit without its configuration file. *)
Lemma prettierCheckPlugin_without_config_witness :
  @prettierCheckPlugin plugin (mkFixable (Some true)) configured =
    (Rejected (SystemError "ENOENT"
                 "/opt/toolkit/cli/tasks/../../config/prettier.plugin.config.json"),
     configured, [SpinnerStart "Prettier check"; SpinnerFail "Prettier check"]).
Proof.
  apply (@prettierCheckPlugin_without_config plugin). vm_compute. reflexivity.
Defined.

(** The prettier check without fix on the fresh project. *)
Lemma prettierCheckPlugin_check_resolves_witness :
  is_resolved (outcome (@prettierCheckPlugin plugin (mkFixable (Some false)) fresh)) =
    is_resolved (@loadedConfig plugin fresh) && negb (nonempty (@discovered plugin fresh)).
Proof.
  apply (@prettierCheckPlugin_check_resolves plugin (Some false) fresh). discriminate.
Defined.

(** The report of the prettier check without fix on two readable sources. *)
Lemma prettierCheckPlugin_check_report_witness :
  @prettierCheckPlugin plugin (mkFixable (Some false)) mixed =
    (Rejected (Error "Prettier failed"), mixed,
     SpinnerStart "Prettier check" ::
     ConsoleLog (newline +:+ "Fix Prettier issues in following files:") ::
     map ConsoleLog (@discovered plugin mixed) ++
     [ConsoleLog (newline +:+ "Run toolkit:dev to fix errors");
      SpinnerFail "Prettier check"]).
Proof.
  apply (@prettierCheckPlugin_check_report plugin (Some false) ∅ mixed).
  - discriminate.
  - vm_compute. reflexivity.
  - vm_compute. discriminate.
  - change (@discovered plugin mixed) with [a_ts; b_ts].
    repeat constructor; vm_compute; eauto.
Defined.

(** The prettier check with fix=true on one source that it rewrites. *)
Lemma prettierCheckPlugin_fix_resolves_witness :
  Forall (fun p => exists c c',
            files unformatted !! p = Some c /\
            @prettier_check plugin c (configFor ∅ p) = false /\
            @prettier_format plugin c (configFor ∅ p) = Resolved c' /\
            10 < String.length c' /\
            p ∉ readonly unformatted) (@discovered plugin unformatted).
Proof.
  apply (@prettierCheckPlugin_fix_resolves plugin ∅ unformatted); vm_compute; reflexivity.
Defined.

(** The prettier check on a source that was removed after the glob. *)
Lemma prettierCheckPlugin_unreadable_witness :
  is_resolved (outcome (@prettierCheckPlugin stale (mkFixable (Some true)) bare)) = false.
Proof.
  apply (@prettierCheckPlugin_unreadable stale (mkFixable (Some true)) bare a_ts).
  - change (@discovered stale bare) with [a_ts]. left.
  - vm_compute. reflexivity.
Defined.

(** The prettier check with fix=true on a source the formatter cannot parse. *)
Lemma prettierCheckPlugin_formatter_throws_witness :
  is_resolved (outcome (@prettierCheckPlugin plugin (mkFixable (Some true)) unparsable)) = false.
Proof.
  apply (@prettierCheckPlugin_formatter_throws plugin ∅ unparsable a_ts "broken("
           (Foreign "SyntaxError")).
  - vm_compute. reflexivity.
  - change (@discovered plugin unparsable) with [a_ts]. left.
  - vm_compute. reflexivity.
  - reflexivity.
  - reflexivity.
Defined.

(** The prettier check with fix=true on one fixable source. *)
Lemma prettierCheckPlugin_fixes_all_witness :
  outcome (@prettierCheckPlugin plugin (mkFixable (Some true)) unformatted) = Resolved tt /\
  printed (events (@prettierCheckPlugin plugin (mkFixable (Some true)) unformatted)) ≡ₚ
    map (fun p => "Fixed: " +:+ p) (@discovered plugin unformatted).
Proof.
  destruct (@prettierCheckPlugin_fixes_all plugin ∅ unformatted) as (Hout & Hprint & _).
  - vm_compute. reflexivity.
  - change (@discovered plugin unformatted) with [a_ts].
    apply NoDup_cons. split; [apply not_elem_of_nil | apply NoDup_nil_2].
  - change (@discovered plugin unformatted) with [a_ts].
    repeat constructor. exists messy, formatted50.
    split; [vm_compute; reflexivity |].
    split; [reflexivity |]. split; [reflexivity |].
    split; [change (10 < 50); lia |].
    apply (bool_decide_unpack _). vm_compute. exact I.
  - split; [exact Hout | exact Hprint].
Defined.

(** The lines of a failure below [src] and of one outside it. *)
Lemma failureLine_below_src_witness :
  failureLine inside = "ERROR: /a.ts[1:0]: Forbidden 'var' keyword".
Proof.
  exact (failureLine_below_src inside "/work/plugin/" "/a.ts" eq_refl eq_refl eq_refl).
Defined.

Lemma failureLine_outside_src_witness :
  failureLine outside = "WARNING: undefined[5:2]: Missing semicolon".
Proof. exact (failureLine_outside_src outside eq_refl). Defined.

(** Splitting a nested file name at [src] and joining it again. *)
Lemma split_joinWith_witness :
  joinWith "src" (split "src" "/usr/src/plugin/src/a.ts") = "/usr/src/plugin/src/a.ts".
Proof. apply split_joinWith. discriminate. Defined.

End Scenarios.
